(** * murgabazar-blog: the request handlers of [main.py] over an explicit store

    The service keeps two tables (users, blogs), a directory of uploaded
    files and a console.  Every handler of [main.py] is a function from the
    store before the request to an outcome and the store after it. *)

From Stdlib Require Import ZArith Ascii String List Lia.
From stdpp Require Import base option list strings gmap.

Local Open Scope Z_scope.
Local Open Scope string_scope.

(** ** Data model ([models.py], [schemas.py]) *)

(** [class User(Base)]: the columns of table [users]. *)
Module User.
Record t := mk { id : Z; email : string; password : string }.
End User.

(** [class Blog(Base)]: the columns of table [blogs], in the order of
    [models.py]; [image] is the only column a handler ever leaves NULL. *)
Module Blog.
Record t := mk {
  id : Z;
  title : string;
  content : string;
  image : option string;
  tags : string;
  owner_id : Z
}.
End Blog.

(** [class UserCreate(BaseModel)]. *)
Module UserCreate.
Record t := mk { email : string; password : string }.
End UserCreate.

(** [OAuth2PasswordRequestForm]: the two fields [login] reads. *)
Module OAuth2PasswordRequestForm.
Record t := mk { username : string; password : string }.
End OAuth2PasswordRequestForm.

(** [class Token(BaseModel)]. *)
Module Token.
Record t := mk { access_token : string; token_type : string }.
End Token.

(** [class BlogResponse(BlogBase)] with [orm_mode]: the fields read off a
    [Blog] row when a handler returns it. *)
Module BlogResponse.
Record t := mk {
  title : string;
  content : string;
  tags : string;
  id : Z;
  image : option string;
  owner_id : Z
}.
End BlogResponse.

Definition from_orm (b : Blog.t) : BlogResponse.t :=
  {| BlogResponse.title := Blog.title b;
     BlogResponse.content := Blog.content b;
     BlogResponse.tags := Blog.tags b;
     BlogResponse.id := Blog.id b;
     BlogResponse.image := Blog.image b;
     BlogResponse.owner_id := Blog.owner_id b |}.

(** [UploadFile]: the client's file name and the bytes of the part. *)
Module UploadFile.
Record t := mk { filename : string; file : list Byte.byte }.
End UploadFile.

(** ** The store *)

(** A Python exception other than [HTTPException]: what [str(e)] gives and
    what [traceback.format_exc()] prints for it. *)
Record Exception := { str : string; format_exc : string }.

Record World := {
  users : list User.t;                    (* table users, in insertion order *)
  blogs : list Blog.t;                    (* table blogs, in insertion order *)
  disk : gmap string (list Byte.byte);    (* regular files, by path *)
  stdout : list string                    (* lines printed so far *)
}.

Definition set_users (us : list User.t) (w : World) : World :=
  {| users := us; blogs := blogs w; disk := disk w; stdout := stdout w |}.
Definition set_blogs (bs : list Blog.t) (w : World) : World :=
  {| users := users w; blogs := bs; disk := disk w; stdout := stdout w |}.
Definition set_disk (d : gmap string (list Byte.byte)) (w : World) : World :=
  {| users := users w; blogs := blogs w; disk := d; stdout := stdout w |}.
Definition set_stdout (o : list string) (w : World) : World :=
  {| users := users w; blogs := blogs w; disk := disk w; stdout := o |}.

(** ** Handlers as store transformers that may raise *)

Inductive Raised :=
| HTTPException (status_code : Z) (detail : string)
| Unhandled (exc : Exception).

Inductive Outcome (A : Type) :=
| Return (a : A)
| Raise (e : Raised).
Arguments Return {A} a.
Arguments Raise {A} e.

Definition M (A : Type) : Type := World -> Outcome A * World.

Definition ret {A} (a : A) : M A := fun w => (Return a, w).

Definition bind {A B} (m : M A) (k : A -> M B) : M B :=
  fun w =>
    match m w with
    | (Return a, w') => k a w'
    | (Raise e, w') => (Raise e, w')
    end.

Definition raise {A} (e : Raised) : M A := fun w => (Raise e, w).
Definition gets {A} (f : World -> A) : M A := fun w => (Return (f w), w).
Definition modify (f : World -> World) : M unit := fun w => (Return tt, f w).

Declare Scope handler_scope.
Delimit Scope handler_scope with handler.
Notation "'let*' x ':=' m 'in' k" := (bind m (fun x => k))
  (at level 10, x name, m at level 100, k at level 200) : handler_scope.
Local Open Scope handler_scope.

(** ** The persistence layer: the queries the handlers issue *)

(** The key an insert receives.
    Modelled from the spec: [database.py], which names the engine, is not
    among the sources; the spec has keys "unique, auto-assigned" and gives
    the first blog key 1.  The key is one more than the largest key in the
    table, and 1 in an empty table. *)
Definition next_id (ids : list Z) : Z := 1 + fold_right Z.max 0 ids.

(** [db.query(T).filter(p).first()]. *)
Definition first {A} (p : A -> bool) (rows : list A) : option A := List.find p rows.

(** [db.add(row); db.commit()] on either table: the row goes in under a new
    key; the caller gets the row as [db.refresh] would reload it. *)
Definition add_user (email password : string) : M User.t :=
  let* us := gets users in
  let row := User.mk (next_id (List.map User.id us)) email password in
  let* _ := modify (set_users (us ++ [row])) in ret row.

Definition add_blog (title content : string) (image : option string)
    (tags : string) (owner_id : Z) : M Blog.t :=
  let* bs := gets blogs in
  let row := Blog.mk (next_id (List.map Blog.id bs)) title content image tags owner_id in
  let* _ := modify (set_blogs (bs ++ [row])) in ret row.

(** [db.delete(blog); db.commit()]: DELETE ... WHERE id = blog.id. *)
Definition delete_row (blog : Blog.t) : M unit :=
  modify (fun w =>
    set_blogs (List.filter (fun b => negb (Z.eqb (Blog.id b) (Blog.id blog))) (blogs w)) w).

(** [db.commit()] with [blog] modified: UPDATE ... WHERE id = blog.id. *)
Definition update_row (blog : Blog.t) : M unit :=
  modify (fun w =>
    set_blogs
      (List.map (fun b => if Z.eqb (Blog.id b) (Blog.id blog) then blog else b) (blogs w)) w).

(** ** The media store: [os.path] and file writes *)

Definition UPLOAD_DIR : string := "uploads".

Fixpoint endswith_sep (s : string) : bool :=
  match s with
  | EmptyString => false
  | String c EmptyString => Ascii.eqb c "/"
  | String _ rest => endswith_sep rest
  end.

(** [os.path.join(a, b)] of [posixpath]: an absolute [b] replaces [a]. *)
Definition os_path_join (a b : string) : string :=
  if String.prefix "/" b then b
  else if String.eqb a "" || endswith_sep a then a ++ b
  else a ++ "/" ++ b.

(** [os.path.exists(path)], for the regular files [disk] records.  A
    directory is not represented: on a path that is one, the program finds
    it and fails in [FileResponse]; nothing below is stated for such a
    path. *)
Definition os_path_exists (path : string) : M bool :=
  gets (fun w => bool_decide (is_Some (disk w !! path))).

(** What the operating system makes of one [open(path, "wb")] followed by
    [shutil.copyfileobj]: it is the environment's choice, so every handler
    that writes receives it with the request.  A failure carries the
    exception and, when [open] had already truncated the file, the bytes
    that reached it. *)
Inductive OsOutcome :=
| Completed
| Failed (e : Exception) (partial : option (list Byte.byte)).

(** [with open(path, "wb") as buffer: shutil.copyfileobj(src, buffer)];
    [inl e] stands for the exception the [try] block catches.  [disk] is
    keyed by the path as written, so the file is read back under the same
    spelling; what another spelling of the same file holds is not stated
    anywhere below. *)
Definition open_wb_copyfileobj (path : string) (src : list Byte.byte)
    (os : OsOutcome) : M (Exception + unit) :=
  match os with
  | Completed =>
      let* _ := modify (fun w => set_disk (<[path := src]> (disk w)) w) in ret (inr tt)
  | Failed e None => ret (inl e)
  | Failed e (Some written) =>
      let* _ := modify (fun w => set_disk (<[path := written]> (disk w)) w) in ret (inl e)
  end.

(** [FileResponse(path)]: the bytes of the file, read when the response is
    sent. *)
Definition FileResponse (path : string) : M (list Byte.byte) :=
  gets (fun w => default [] (disk w !! path)).

(** ** What the framework hands to a handler *)

Fixpoint has_slash (s : string) : bool :=
  match s with
  | EmptyString => false
  | String c rest => Ascii.eqb c "/" || has_slash rest
  end.

(** What a path parameter such as [{filename}] in ["/images/{filename}"]
    matches: one segment, that is a string that is not empty and has no
    "/". *)
Definition path_segment (s : string) : bool :=
  negb (String.eqb s "") && negb (has_slash s).

(** [s.rstrip("/")]. *)
Fixpoint rstrip_slash (s : string) : string :=
  match s with
  | EmptyString => EmptyString
  | String c rest =>
      let rest' := rstrip_slash rest in
      if Ascii.eqb c "/" && String.eqb rest' "" then EmptyString else String c rest'
  end.

(** A parameter declared [Form(None)]: a field that is not sent, and
    equally a field that is sent empty, gives the default [None]; any other
    value sent is passed on. *)
Definition form_value (sent : option string) : option string :=
  match sent with
  | Some v => if String.eqb v "" then None else Some v
  | None => None
  end.

(** A key in the signed 64-bit range.  [database.py], which names the
    engine, is not among the sources; a query parameter outside this range
    can be refused by the driver, which a handler does not catch, so what is
    stated for a key that need not be in the table is stated for keys in
    this range. *)
Definition fits_integer_column (id : Z) : bool :=
  (- 2 ^ 63 <=? id)%Z && (id <? 2 ^ 63)%Z.

(** ** The handlers of [main.py] *)

Definition set_title (v : string) (b : Blog.t) : Blog.t :=
  Blog.mk (Blog.id b) v (Blog.content b) (Blog.image b) (Blog.tags b) (Blog.owner_id b).
Definition set_content (v : string) (b : Blog.t) : Blog.t :=
  Blog.mk (Blog.id b) (Blog.title b) v (Blog.image b) (Blog.tags b) (Blog.owner_id b).
Definition set_tags (v : string) (b : Blog.t) : Blog.t :=
  Blog.mk (Blog.id b) (Blog.title b) (Blog.content b) (Blog.image b) v (Blog.owner_id b).
Definition set_image (v : option string) (b : Blog.t) : Blog.t :=
  Blog.mk (Blog.id b) (Blog.title b) (Blog.content b) v (Blog.tags b) (Blog.owner_id b).

(** [if x is not None: blog.f = x]. *)
Definition assign_if_given (set : string -> Blog.t -> Blog.t)
    (x : option string) (blog : Blog.t) : Blog.t :=
  match x with
  | Some v => set v blog
  | None => blog
  end.

Section Handlers.

(** [auth.py] is not among the sources; its three functions are parameters.
    [hash_password] draws a salt and [create_access_token] reads the clock:
    both receive what they draw as a further argument. *)
Variable hash_password : string -> string -> string.      (* salt, password *)
Variable verify_password : string -> string -> bool.      (* password, stored hash *)
Variable create_access_token : Z -> string -> string.     (* clock, the "sub" entry *)

(** [def signup(user, db)]. *)
Definition signup (user : UserCreate.t) (salt : string) : M string :=
  let* existing :=
    gets (fun w => first (fun u => String.eqb (User.email u) (UserCreate.email user)) (users w)) in
  match existing with
  | Some _ => raise (HTTPException 400 "Email already exists")
  | None =>
      let* _ := add_user (UserCreate.email user) (hash_password salt (UserCreate.password user)) in
      ret "User created successfully"
  end.

(** [def login(form, db)]. *)
Definition login (form : OAuth2PasswordRequestForm.t) (now : Z) : M Token.t :=
  let* user :=
    gets (fun w =>
      first (fun u => String.eqb (User.email u) (OAuth2PasswordRequestForm.username form))
            (users w)) in
  match user with
  | None => raise (HTTPException 401 "Invalid credentials")
  | Some user =>
      if negb (verify_password (OAuth2PasswordRequestForm.password form) (User.password user))
      then raise (HTTPException 401 "Invalid credentials")
      else
        let token := create_access_token now (User.email user) in
        ret (Token.mk token "bearer")
  end.

(** [def create_blog(title, content, tags, image, db, current_user)];
    [content] and [tags] default to [Form("")], [image] to [File(None)]. *)
Definition create_blog (title : string) (content tags : option string)
    (image : option UploadFile.t) (current_user : User.t) (os : OsOutcome) : M Blog.t :=
  let content := default "" content in
  let tags := default "" tags in
  let* image_path :=
    match image with
    | None => ret None
    | Some image =>
        let image_path := os_path_join UPLOAD_DIR (UploadFile.filename image) in
        let* written := open_wb_copyfileobj image_path (UploadFile.file image) os in
        match written with
        | inr _ => ret (Some image_path)
        | inl e => raise (HTTPException 500 ("Image upload failed: " ++ str e))
        end
    end in
  add_blog title content image_path tags (User.id current_user).

(** [def get_blogs(db)]. *)
Definition get_blogs : M (list Blog.t) := gets blogs.

(** [def get_image(filename)]. *)
Definition get_image (filename : string) : M (list Byte.byte) :=
  let path := os_path_join UPLOAD_DIR filename in
  let* found := os_path_exists path in
  if negb found then raise (HTTPException 404 "Image not found")
  else FileResponse path.

(** [def delete_blog(id, db, current_user)]. *)
Definition delete_blog (id : Z) (current_user : User.t) : M string :=
  let* blog :=
    gets (fun w =>
      first (fun b => Z.eqb (Blog.id b) id && Z.eqb (Blog.owner_id b) (User.id current_user))
            (blogs w)) in
  match blog with
  | None => raise (HTTPException 404 "Blog not found or unauthorized")
  | Some blog => let* _ := delete_row blog in ret "Blog deleted"
  end.

(** [def update_blog(id, title, content, tags, image, db, current_user)];
    the four fields default to [None].  The assignments change the loaded
    object; the table changes at [db.commit()]. *)
Definition update_blog (id : Z) (title content tags : option string)
    (image : option UploadFile.t) (current_user : User.t) (os : OsOutcome) : M Blog.t :=
  let* blog :=
    gets (fun w =>
      first (fun b => Z.eqb (Blog.id b) id && Z.eqb (Blog.owner_id b) (User.id current_user))
            (blogs w)) in
  match blog with
  | None => raise (HTTPException 404 "Blog not found or unauthorized")
  | Some blog =>
      let blog := assign_if_given set_title title blog in
      let blog := assign_if_given set_content content blog in
      let blog := assign_if_given set_tags tags blog in
      let* blog :=
        match image with
        | None => ret blog
        | Some image =>
            let image_path := os_path_join UPLOAD_DIR (UploadFile.filename image) in
            let* written := open_wb_copyfileobj image_path (UploadFile.file image) os in
            match written with
            | inr _ => ret (set_image (Some image_path) blog)
            | inl e => raise (HTTPException 500 ("Image upload failed: " ++ str e))
            end
        end in
      let* _ := update_row blog in ret blog
  end.

(** [def get_all_blogs_with_users(db)]. *)
Definition get_all_blogs_with_users : M (list Blog.t) :=
  let* blogs := gets blogs in
  ret blogs.

(** [def get_blog_by_id(id, db)]. *)
Definition get_blog_by_id (id : Z) : M Blog.t :=
  let* blog := gets (fun w => first (fun b => Z.eqb (Blog.id b) id) (blogs w)) in
  match blog with
  | None => raise (HTTPException 404 "Blog not found")
  | Some blog => ret blog
  end.

(** ** The application: requests, responses and the exception handlers *)

Inductive Body :=
| JSONMessage (message : string)               (* {"message": ...} *)
| JSONDetail (detail : string)                 (* {"detail": ...} *)
| JSONToken (token : Token.t)                  (* response_model=Token *)
| JSONBlog (blog : BlogResponse.t)             (* response_model=BlogResponse *)
| JSONBlogs (blogs : list BlogResponse.t)      (* response_model=list[BlogResponse] *)
| FileBytes (data : list Byte.byte)            (* FileResponse *)
| Redirect (location : string).                (* RedirectResponse, no content *)

Record Response := { status : Z; body : Body }.

(** [async def custom_exception_handler(request, exc)]: prints the traceback
    and answers with a fixed body. *)
Definition custom_exception_handler (exc : Exception) (w : World) : Response * World :=
  ({| status := 500; body := JSONDetail "Internal Server Error" |},
   set_stdout (stdout w ++ ["ERROR: " ++ format_exc exc]) w).

(** One request through the application: the handler's value is rendered
    with status 200; an [HTTPException] becomes its status and detail (the
    framework's own handler); any other exception goes to
    [custom_exception_handler]. *)
Definition serve {A} (render : A -> Body) (handler : M A) (w : World) : Response * World :=
  match handler w with
  | (Return a, w') => ({| status := 200; body := render a |}, w')
  | (Raise (HTTPException status_code detail), w') =>
      ({| status := status_code; body := JSONDetail detail |}, w')
  | (Raise (Unhandled exc), w') => custom_exception_handler exc w'
  end.

(** The routes of [main.py], in the order they are declared, each with what
    the framework has extracted from the request (body, form fields, the
    caller resolved by [get_current_user]) and what the environment supplies
    while it is handled. *)
Inductive Request :=
| POST_signup (user : UserCreate.t) (salt : string)
| POST_login (form : OAuth2PasswordRequestForm.t) (now : Z)
| POST_blogs (title : string) (content tags : option string)
    (image : option UploadFile.t) (current_user : User.t) (os : OsOutcome)
| GET_blogs
| GET_images (filename : string)
| DELETE_blogs_id (id : Z) (current_user : User.t)
| PUT_blogs_id (id : Z) (title content tags : option string)
    (image : option UploadFile.t) (current_user : User.t) (os : OsOutcome)
| GET_blogs_all
| GET_blogs_id (id : Z).

Definition app (r : Request) : World -> Response * World :=
  match r with
  | POST_signup user salt => serve JSONMessage (signup user salt)
  | POST_login form now => serve JSONToken (login form now)
  | POST_blogs title content tags image current_user os =>
      serve (fun b => JSONBlog (from_orm b))
            (create_blog title content tags image current_user os)
  | GET_blogs => serve (fun bs => JSONBlogs (List.map from_orm bs)) get_blogs
  | GET_images filename => serve FileBytes (get_image filename)
  | DELETE_blogs_id id current_user => serve JSONMessage (delete_blog id current_user)
  | PUT_blogs_id id title content tags image current_user os =>
      serve (fun b => JSONBlog (from_orm b))
            (update_blog id title content tags image current_user os)
  | GET_blogs_all => serve (fun bs => JSONBlogs (List.map from_orm bs)) get_all_blogs_with_users
  | GET_blogs_id id => serve (fun b => JSONBlog (from_orm b)) (get_blog_by_id id)
  end.

(** The store after a sequence of requests, one at a time. *)
Fixpoint run (rs : list Request) (w : World) : World :=
  match rs with
  | [] => w
  | r :: rs => run rs (snd (app r w))
  end.

(** GET on the URL path ["/images/" ++ rest], as the router serves it.
    [@app.get("/images/{filename}")] is the only route under ["/images/"]:
    when [rest] is one segment, [get_image] runs with it.  Otherwise no
    route matches; the router then tries the path without its trailing
    slashes and, if that one matches, answers with a redirect (307) to it;
    failing that it answers 404 "Not Found". *)
Definition GET_images_at (rest : string) (w : World) : Response * World :=
  if path_segment rest then app (GET_images rest) w
  else if endswith_sep rest && path_segment (rstrip_slash rest)
  then ({| status := 307; body := Redirect ("/images/" ++ rstrip_slash rest) |}, w)
  else ({| status := 404; body := JSONDetail "Not Found" |}, w).

(** PUT /blogs/{id} with the form fields as the client sent them ([None]: the
    field is not in the form): [title], [content] and [tags] are declared
    [Form(None)]. *)
Definition PUT_blogs_id_form (id : Z) (title content tags : option string)
    (image : option UploadFile.t) (current_user : User.t) (os : OsOutcome)
    (w : World) : Response * World :=
  app (PUT_blogs_id id (form_value title) (form_value content) (form_value tags)
                    image current_user os) w.

End Handlers.

(** ** Table constraints *)

(** [primary_key=True] on [id], [unique=True] on [email]: no value occurs
    twice in the column. *)
Fixpoint distinct_ids (ids : list Z) : bool :=
  match ids with
  | [] => true
  | i :: rest => negb (existsb (Z.eqb i) rest) && distinct_ids rest
  end.

Fixpoint distinct_emails (emails : list string) : bool :=
  match emails with
  | [] => true
  | e :: rest => negb (existsb (String.eqb e) rest) && distinct_emails rest
  end.

Definition constraints_hold (w : World) : bool :=
  distinct_ids (List.map User.id (users w))
  && distinct_emails (List.map User.email (users w))
  && distinct_ids (List.map Blog.id (blogs w)).

(** The write of an upload goes through: there is no upload, or the
    operating system completes it. *)
Definition upload_succeeds (image : option UploadFile.t) (os : OsOutcome) : bool :=
  match image, os with
  | None, _ => true
  | Some _, Completed => true
  | Some _, Failed _ _ => false
  end.

(** What [update_blog] leaves in the row it loaded. *)
Definition updated (B : Blog.t) (title content tags : option string)
    (image : option UploadFile.t) : Blog.t :=
  let B := assign_if_given set_title title B in
  let B := assign_if_given set_content content B in
  let B := assign_if_given set_tags tags B in
  match image with
  | None => B
  | Some image => set_image (Some (os_path_join UPLOAD_DIR (UploadFile.filename image))) B
  end.

(** ** A concrete instance of the parameters, to run the handlers on *)

Definition sample_hash_password (salt password : string) : string :=
  salt ++ "$" ++ password.
Definition sample_verify_password (password hashed : string) : bool :=
  String.eqb (substring 3 (String.length hashed - 3) hashed) password.
Definition sample_create_access_token (now : Z) (sub : string) : string :=
  "token-for-" ++ sub.

Definition sample_app : Request -> World -> Response * World :=
  app sample_hash_password sample_verify_password sample_create_access_token.
Definition sample_GET_images_at : string -> World -> Response * World :=
  GET_images_at sample_hash_password sample_verify_password sample_create_access_token.
Definition sample_PUT_blogs_id_form :=
  PUT_blogs_id_form sample_hash_password sample_verify_password sample_create_access_token.

Definition alice : User.t := User.mk 1 "a@x.com" "s1$p1".
Definition bob : User.t := User.mk 2 "b@x.com" "s2$p2".
Definition first_post : Blog.t := Blog.mk 1 "T" "" None "" 1.
Definition photo : UploadFile.t := UploadFile.mk "hen.png" [Byte.x89; Byte.x50; Byte.x4e; Byte.x47].
Definition disk_full : Exception :=
  {| str := "[Errno 28] No space left on device";
     format_exc :=
       "Traceback (most recent call last): OSError: [Errno 28] No space left on device" |}.

Definition empty_world : World :=
  {| users := []; blogs := []; disk := ∅; stdout := [] |}.
Definition small_world : World :=
  {| users := [alice; bob]; blogs := [first_post]; disk := ∅; stdout := [] |}.

(** ** Callers and owners *)

(** The user a protected route runs for: the [current_user] argument that
    [Depends(get_current_user)] fills in.  The other routes have none. *)
Definition caller (r : Request) : option User.t :=
  match r with
  | POST_blogs _ _ _ _ current_user _ => Some current_user
  | DELETE_blogs_id _ current_user => Some current_user
  | PUT_blogs_id _ _ _ _ _ current_user _ => Some current_user
  | _ => None
  end.

(** The caller, if the route has one, is a row of the users table.
    Modelled from the spec: [dependencies.py] is not among the sources; the
    spec has [get_current_user] map the token "to a persisted User record"
    and fail with 401 otherwise, so a handler only runs for such a caller. *)
Definition caller_persisted (r : Request) (w : World) : bool :=
  match caller r with
  | Some u => existsb (fun v => Z.eqb (User.id v) (User.id u)) (users w)
  | None => true
  end.

(** [ForeignKey("users.id")] on [owner_id]: every blog's owner is the key of
    a user row. *)
Definition owners_exist (w : World) : bool :=
  forallb (fun b => existsb (fun v => Z.eqb (User.id v) (Blog.owner_id b)) (users w))
          (blogs w).

(** ** The handler monad *)

Lemma bind_ret_l {A B} (a : A) (k : A -> M B) (w : World) : bind (ret a) k w = k a w.
Proof. reflexivity. Qed.

Lemma bind_ret_r {A} (m : M A) (w : World) : bind m ret w = m w.
Proof. unfold bind, ret. now destruct (m w) as [[a|e] w']. Qed.

Lemma bind_assoc {A B C} (m : M A) (k : A -> M B) (h : B -> M C) (w : World) :
  bind (bind m k) h w = bind m (fun a => bind (k a) h) w.
Proof. unfold bind. now destruct (m w) as [[a|e] w']. Qed.

(** Nothing runs after a [raise]: the store is the one at the [raise]. *)
Lemma bind_raise {A B} (e : Raised) (k : A -> M B) (w : World) :
  bind (raise e) k w = (Raise e, w).
Proof. reflexivity. Qed.

(** ** Lemmas on keys and on queries *)

Lemma next_id_above (ids : list Z) (i : Z) : In i ids -> i < next_id ids.
Proof.
  unfold next_id. induction ids as [|j ids IH]; simpl; [tauto|].
  intros [->|Hin]; [lia|]. specialize (IH Hin). lia.
Qed.

Lemma next_id_fresh (ids : list Z) : ~ In (next_id ids) ids.
Proof. intros Hin. apply next_id_above in Hin. lia. Qed.

Lemma existsb_Zeqb_In (i : Z) (l : list Z) : existsb (Z.eqb i) l = true <-> In i l.
Proof.
  rewrite existsb_exists. split.
  - intros (x & Hx & Heq). apply Z.eqb_eq in Heq. now subst.
  - intros Hin. exists i. split; [assumption|apply Z.eqb_refl].
Qed.

Lemma existsb_Seqb_In (e : string) (l : list string) :
  existsb (String.eqb e) l = true <-> In e l.
Proof.
  rewrite existsb_exists. split.
  - intros (x & Hx & Heq). apply String.eqb_eq in Heq. now subst.
  - intros Hin. exists e. split; [assumption|apply String.eqb_refl].
Qed.

Lemma distinct_ids_NoDup (ids : list Z) : distinct_ids ids = true <-> NoDup ids.
Proof.
  induction ids as [|i ids IH]; simpl.
  - split; [constructor|reflexivity].
  - rewrite andb_true_iff, negb_true_iff, IH. split.
    + intros [Hn Hd]. apply NoDup_cons. split; [|assumption].
      rewrite list_elem_of_In, <- existsb_Zeqb_In. congruence.
    + intros Hnd. apply NoDup_cons in Hnd as [Hn Hd]. split; [|assumption].
      rewrite list_elem_of_In, <- existsb_Zeqb_In in Hn.
      now destruct (existsb (Z.eqb i) ids).
Qed.

Lemma distinct_emails_NoDup (es : list string) : distinct_emails es = true <-> NoDup es.
Proof.
  induction es as [|e es IH]; simpl.
  - split; [constructor|reflexivity].
  - rewrite andb_true_iff, negb_true_iff, IH. split.
    + intros [Hn Hd]. apply NoDup_cons. split; [|assumption].
      rewrite list_elem_of_In, <- existsb_Seqb_In. congruence.
    + intros Hnd. apply NoDup_cons in Hnd as [Hn Hd]. split; [|assumption].
      rewrite list_elem_of_In, <- existsb_Seqb_In in Hn.
      now destruct (existsb (String.eqb e) es).
Qed.

(** Under a key constraint a row is determined by its key. *)
Lemma key_determines_row {A} (key : A -> Z) (rows : list A) (a b : A) :
  distinct_ids (List.map key rows) = true ->
  In a rows -> In b rows -> key a = key b -> a = b.
Proof.
  induction rows as [|r rows IH]; simpl; [tauto|].
  rewrite andb_true_iff, negb_true_iff. intros [Hn Hd] Ha Hb Hk.
  assert (Hnot : forall c, In c rows -> key c <> key r).
  { intros c Hc Heq. apply (in_map key) in Hc. rewrite Heq in Hc.
    apply existsb_Zeqb_In in Hc. congruence. }
  destruct Ha as [->|Ha], Hb as [->|Hb]; try reflexivity.
  - exfalso. apply (Hnot b Hb). congruence.
  - exfalso. apply (Hnot a Ha). congruence.
  - now apply IH.
Qed.

Lemma email_determines_user (rows : list User.t) (a b : User.t) :
  distinct_emails (List.map User.email rows) = true ->
  In a rows -> In b rows -> User.email a = User.email b -> a = b.
Proof.
  induction rows as [|r rows IH]; simpl; [tauto|].
  rewrite andb_true_iff, negb_true_iff. intros [Hn Hd] Ha Hb Hk.
  assert (Hnot : forall c, In c rows -> User.email c <> User.email r).
  { intros c Hc Heq. apply (in_map User.email) in Hc. rewrite Heq in Hc.
    apply existsb_Seqb_In in Hc. congruence. }
  destruct Ha as [->|Ha], Hb as [->|Hb]; try reflexivity.
  - exfalso. apply (Hnot b Hb). congruence.
  - exfalso. apply (Hnot a Ha). congruence.
  - now apply IH.
Qed.

Lemma first_Some {A} (p : A -> bool) (rows : list A) (a : A) :
  first p rows = Some a -> In a rows /\ p a = true.
Proof. apply find_some. Qed.

Lemma first_None {A} (p : A -> bool) (rows : list A) :
  first p rows = None <-> (forall a, In a rows -> p a = false).
Proof.
  split.
  - intros H a Ha. exact (find_none p rows H a Ha).
  - intros H. unfold first. induction rows as [|r rows IH]; simpl; [reflexivity|].
    rewrite (H r (or_introl eq_refl)). apply IH. intros a Ha. apply H. now right.
Qed.

(** With the key constraint, the owner's query for a stored row finds that
    row, and nobody else's query for it finds anything. *)
Lemma owner_query_finds (bs : list Blog.t) (B : Blog.t) (uid : Z) :
  distinct_ids (List.map Blog.id bs) = true -> In B bs -> uid = Blog.owner_id B ->
  first (fun b => Z.eqb (Blog.id b) (Blog.id B) && Z.eqb (Blog.owner_id b) uid) bs = Some B.
Proof.
  intros Hd HB ->.
  destruct (first _ bs) as [b|] eqn:Hf.
  - apply first_Some in Hf as [Hb Hp]. apply andb_true_iff in Hp as [Hi _].
    apply Z.eqb_eq in Hi. f_equal. exact (key_determines_row Blog.id bs b B Hd Hb HB Hi).
  - rewrite first_None in Hf. specialize (Hf B HB). simpl in Hf.
    now rewrite !Z.eqb_refl in Hf.
Qed.

Lemma stranger_query_empty (bs : list Blog.t) (B : Blog.t) (uid : Z) :
  distinct_ids (List.map Blog.id bs) = true -> In B bs -> uid <> Blog.owner_id B ->
  first (fun b => Z.eqb (Blog.id b) (Blog.id B) && Z.eqb (Blog.owner_id b) uid) bs = None.
Proof.
  intros Hd HB Hne. apply first_None. intros b Hb.
  destruct (Z.eqb (Blog.id b) (Blog.id B)) eqn:Hi; [|reflexivity]. simpl.
  apply Z.eqb_eq in Hi.
  rewrite (key_determines_row Blog.id bs b B Hd Hb HB Hi).
  apply Z.eqb_neq. congruence.
Qed.

(** ** Properties of the application *)

Create HintDb handlers.
#[local] Hint Unfold app serve signup login create_blog get_blogs get_image
  delete_blog update_blog get_all_blogs_with_users get_blog_by_id
  add_user add_blog delete_row update_row open_wb_copyfileobj os_path_exists
  FileResponse custom_exception_handler bind ret raise gets modify : handlers.

Ltac step_handler := autounfold with handlers; simpl.

Section Properties.

Variable hash_password : string -> string -> string.
Variable verify_password : string -> string -> bool.
Variable create_access_token : Z -> string -> string.

Abbreviation app := (app hash_password verify_password create_access_token).

Lemma GET_images_at_segment (F : string) (w : World) :
  path_segment F = true ->
  GET_images_at hash_password verify_password create_access_token F w
  = app (GET_images F) w.
Proof. intros Hseg. unfold GET_images_at. now rewrite Hseg. Qed.

Lemma PUT_blogs_id_form_decoded (id : Z) (title content tags : option string)
    (image : option UploadFile.t) (U : User.t) (os : OsOutcome) (w : World) :
  PUT_blogs_id_form hash_password verify_password create_access_token
    id title content tags image U os w
  = app (PUT_blogs_id id (form_value title) (form_value content) (form_value tags)
                      image U os) w.
Proof. reflexivity. Qed.

Abbreviation GET_images_at :=
  (GET_images_at hash_password verify_password create_access_token).
Abbreviation PUT_blogs_id_form :=
  (PUT_blogs_id_form hash_password verify_password create_access_token).

Lemma updated_id B title content tags image :
  Blog.id (updated B title content tags image) = Blog.id B.
Proof. now destruct title, content, tags, image. Qed.

(** The owner's PUT, when the upload (if any) is written: status 200, the
    updated row in the body and in the table, the file on disk. *)
Lemma put_by_owner_ok (w : World) (B : Blog.t) (U : User.t)
    (title content tags : option string) (image : option UploadFile.t) (os : OsOutcome) :
  distinct_ids (List.map Blog.id (blogs w)) = true ->
  In B (blogs w) ->
  User.id U = Blog.owner_id B ->
  upload_succeeds image os = true ->
  let B' := updated B title content tags image in
  app (PUT_blogs_id (Blog.id B) title content tags image U os) w =
    ({| status := 200; body := JSONBlog (from_orm B') |},
     {| users := users w;
        blogs := List.map (fun b => if Z.eqb (Blog.id b) (Blog.id B) then B' else b) (blogs w);
        disk := match image with
                | None => disk w
                | Some image =>
                    <[os_path_join UPLOAD_DIR (UploadFile.filename image) := UploadFile.file image]>
                      (disk w)
                end;
        stdout := stdout w |}).
Proof.
  intros Hd HB HU Hup B'. step_handler.
  rewrite (owner_query_finds (blogs w) B (User.id U) Hd HB HU).
  destruct image as [image|].
  - destruct os as [|e partial]; [|discriminate Hup]. simpl.
    subst B'. unfold updated. simpl.
    destruct title, content, tags; reflexivity.
  - simpl. subst B'. unfold updated.
    destruct title, content, tags; reflexivity.
Qed.

(** The owner's PUT, when the write of the upload fails: status 500 with the
    exception's message in the detail; both tables and the console are as
    before. *)
Lemma put_by_owner_write_fails (w : World) (B : Blog.t) (U : User.t)
    (title content tags : option string) (image : UploadFile.t)
    (e : Exception) (partial : option (list Byte.byte)) :
  distinct_ids (List.map Blog.id (blogs w)) = true ->
  In B (blogs w) ->
  User.id U = Blog.owner_id B ->
  let r := app (PUT_blogs_id (Blog.id B) title content tags (Some image) U (Failed e partial)) w in
  fst r = {| status := 500; body := JSONDetail ("Image upload failed: " ++ str e) |}
  /\ users (snd r) = users w /\ blogs (snd r) = blogs w /\ stdout (snd r) = stdout w.
Proof.
  intros Hd HB HU. step_handler.
  rewrite (owner_query_finds (blogs w) B (User.id U) Hd HB HU).
  destruct partial; simpl; auto.
Qed.

(** *** The table constraints are invariants of the application *)

Lemma distinct_ids_snoc (ids : list Z) (i : Z) :
  distinct_ids ids = true -> ~ In i ids -> distinct_ids (ids ++ [i])%list = true.
Proof.
  rewrite !distinct_ids_NoDup. intros Hd Hn. apply NoDup_app.
  split; [assumption|]. split; [|apply NoDup_singleton].
  intros x Hx Hx'. apply list_elem_of_singleton in Hx'. subst x.
  now apply list_elem_of_In in Hx.
Qed.

Lemma distinct_emails_snoc (es : list string) (e : string) :
  distinct_emails es = true -> ~ In e es -> distinct_emails (es ++ [e])%list = true.
Proof.
  rewrite !distinct_emails_NoDup. intros Hd Hn. apply NoDup_app.
  split; [assumption|]. split; [|apply NoDup_singleton].
  intros x Hx Hx'. apply list_elem_of_singleton in Hx'. subst x.
  now apply list_elem_of_In in Hx.
Qed.

Lemma distinct_ids_filter {A} (key : A -> Z) (p : A -> bool) (rows : list A) :
  distinct_ids (List.map key rows) = true ->
  distinct_ids (List.map key (List.filter p rows)) = true.
Proof.
  induction rows as [|r rows IH]; simpl; [reflexivity|].
  rewrite andb_true_iff, negb_true_iff. intros [Hn Hd].
  destruct (p r); simpl; [|now apply IH].
  rewrite andb_true_iff, negb_true_iff. split; [|now apply IH].
  destruct (existsb (Z.eqb (key r)) (List.map key (List.filter p rows))) eqn:Hex;
    [|reflexivity].
  apply existsb_Zeqb_In in Hex. apply in_map_iff in Hex as (b & Hk & Hb).
  apply filter_In in Hb as [Hb _]. apply (in_map key) in Hb. rewrite Hk in Hb.
  apply existsb_Zeqb_In in Hb. congruence.
Qed.

Lemma ids_after_update (bs : list Blog.t) (k : Z) (B' : Blog.t) :
  Blog.id B' = k ->
  List.map Blog.id (List.map (fun b => if Z.eqb (Blog.id b) k then B' else b) bs)
  = List.map Blog.id bs.
Proof.
  intros Hk. induction bs as [|b bs IH]; simpl; [reflexivity|]. rewrite IH. f_equal.
  destruct (Z.eqb (Blog.id b) k) eqn:Hb; [|reflexivity].
  apply Z.eqb_eq in Hb. congruence.
Qed.


(** Every request keeps the keys of both tables and the e-mail addresses
    free of repetitions. *)
Theorem constraints_preserved (r : Request) (w : World) :
  constraints_hold w = true -> constraints_hold (snd (app r w)) = true.
Proof.
  unfold constraints_hold. intros H.
  apply andb_true_iff in H as [H Hb]. apply andb_true_iff in H as [Hu He].
  destruct r; step_handler.
  - (* signup *)
    destruct (first _ (users w)) as [u|] eqn:Hq; simpl; [now rewrite Hu, He, Hb|].
    rewrite first_None in Hq. rewrite !List.map_app. simpl.
    rewrite distinct_ids_snoc, distinct_emails_snoc, Hb; auto.
    + intros Hin. apply in_map_iff in Hin as (u & Hmail & Hin).
      specialize (Hq u Hin). simpl in Hq. rewrite Hmail, String.eqb_refl in Hq.
      discriminate.
    + apply next_id_fresh.
  - (* login *)
    destruct (first _ (users w)) as [u|]; simpl; [|now rewrite Hu, He, Hb].
    destruct (verify_password _ _); simpl; now rewrite Hu, He, Hb.
  - (* create_blog *)
    assert (Hadd : distinct_ids
              (List.map Blog.id
                 (blogs w ++ [Blog.mk (next_id (List.map Blog.id (blogs w))) title
                                (default "" content) None (default "" tags)
                                (User.id current_user)])%list) = true).
    { rewrite List.map_app. simpl. apply distinct_ids_snoc; [assumption|apply next_id_fresh]. }
    destruct image as [image|]; simpl.
    + destruct os as [|e [written|]]; simpl; rewrite ?Hu, ?He, ?Hb; auto.
      rewrite List.map_app. simpl.
      rewrite distinct_ids_snoc; [reflexivity|assumption|apply next_id_fresh].
    + now rewrite Hu, He, Hadd.
  - now rewrite Hu, He, Hb.
  - destruct (bool_decide _); simpl; now rewrite Hu, He, Hb.
  - (* delete_blog *)
    destruct (first _ (blogs w)) as [b|]; simpl; [|now rewrite Hu, He, Hb].
    now rewrite Hu, He, distinct_ids_filter.
  - (* update_blog *)
    destruct (first _ (blogs w)) as [b|]; simpl; [|now rewrite Hu, He, Hb].
    destruct image as [image|]; simpl.
    + destruct os as [|e [written|]]; simpl; rewrite ?Hu, ?He, ?Hb; auto.
      now rewrite ids_after_update, Hb.
    + now rewrite Hu, He, ids_after_update, Hb.
  - now rewrite Hu, He, Hb.
  - destruct (first _ (blogs w)); simpl; now rewrite Hu, He, Hb.
Qed.

(** X1: Whatever requests the application has served since it started with
    empty tables, the constraints hold. *)
Corollary constraints_hold_always (rs : list Request) :
  constraints_hold (run hash_password verify_password create_access_token rs empty_world) = true.
Proof.
  assert (H : forall w, constraints_hold w = true ->
                        constraints_hold
                          (run hash_password verify_password create_access_token rs w) = true).
  { induction rs as [|r rs IH]; intros w Hw; simpl; [assumption|].
    apply IH. now apply constraints_preserved. }
  now apply H.
Qed.

(** C1: a PUT or DELETE on a stored blog by a caller who is not its owner
    answers 404 and leaves the whole store, the blog's row included, as it
    was. *)
Theorem non_owner_put_delete_not_found (w : World) (B : Blog.t) (U : User.t)
    (title content tags : option string) (image : option UploadFile.t) (os : OsOutcome) :
  distinct_ids (List.map Blog.id (blogs w)) = true ->
  In B (blogs w) ->
  User.id U <> Blog.owner_id B ->
  app (PUT_blogs_id (Blog.id B) title content tags image U os) w =
    ({| status := 404; body := JSONDetail "Blog not found or unauthorized" |}, w)
  /\ app (DELETE_blogs_id (Blog.id B) U) w =
    ({| status := 404; body := JSONDetail "Blog not found or unauthorized" |}, w).
Proof.
  intros Hd HB HU. split; step_handler;
    now rewrite (stranger_query_empty (blogs w) B (User.id U) Hd HB HU).
Qed.

(** C2: a successful PUT by the owner sets each of title, content, tags to
    the supplied value and image to the path of the supplied upload; a field
    that was not supplied keeps its value, id and owner_id always do, and
    every other row of the table is untouched.  The PUT succeeds exactly
    when the upload, if there is one, is written. *)
Theorem put_changes_exactly_supplied_fields (w : World) (B : Blog.t) (U : User.t)
    (title content tags : option string) (image : option UploadFile.t) (os : OsOutcome) :
  distinct_ids (List.map Blog.id (blogs w)) = true ->
  In B (blogs w) ->
  User.id U = Blog.owner_id B ->
  let r := app (PUT_blogs_id (Blog.id B) title content tags image U os) w in
  (status (fst r) = 200 <-> upload_succeeds image os = true)
  /\ (status (fst r) = 200 ->
      exists B' : Blog.t,
        body (fst r) = JSONBlog (from_orm B')
        /\ Blog.id B' = Blog.id B
        /\ Blog.owner_id B' = Blog.owner_id B
        /\ Blog.title B' = default (Blog.title B) title
        /\ Blog.content B' = default (Blog.content B) content
        /\ Blog.tags B' = default (Blog.tags B) tags
        /\ Blog.image B' =
             match image with
             | Some f => Some (os_path_join UPLOAD_DIR (UploadFile.filename f))
             | None => Blog.image B
             end
        /\ blogs (snd r) =
             List.map (fun b => if Z.eqb (Blog.id b) (Blog.id B) then B' else b) (blogs w)
        /\ (forall b, In b (blogs w) -> b <> B -> In b (blogs (snd r)))
        /\ users (snd r) = users w).
Proof.
  intros Hd HB HU r.
  destruct (upload_succeeds image os) eqn:Hup.
  - pose proof (put_by_owner_ok w B U title content tags image os Hd HB HU Hup) as Hok.
    cbv zeta in Hok. subst r. rewrite Hok. simpl. split; [tauto|]. intros _.
    exists (updated B title content tags image).
    repeat split; try (destruct title, content, tags, image; reflexivity).
    intros b Hb Hne. apply in_map_iff. exists b. split; [|assumption].
    destruct (Z.eqb (Blog.id b) (Blog.id B)) eqn:Hi; [|reflexivity].
    apply Z.eqb_eq in Hi. exfalso. apply Hne.
    exact (key_determines_row Blog.id (blogs w) b B Hd Hb HB Hi).
  - destruct image as [image|]; [|discriminate Hup].
    destruct os as [|e partial]; [discriminate Hup|].
    destruct (put_by_owner_write_fails w B U title content tags image e partial Hd HB HU)
      as (Hr & _). fold r in Hr. rewrite Hr. simpl.
    split; [split; intros; discriminate|intros; discriminate].
Qed.

(** C3: with e-mail addresses unique in the table, POST /login with
    username E and password P answers 200 with a bearer token if and only if
    some user has e-mail E and P verifies against that user's stored hash;
    every other login answers 401.  The store is not changed. *)
Theorem login_succeeds_iff_password_verifies (w : World) (E P : string) (now : Z) :
  distinct_emails (List.map User.email (users w)) = true ->
  let r := app (POST_login (OAuth2PasswordRequestForm.mk E P) now) w in
  (status (fst r) = 200 <->
     exists u, In u (users w) /\ User.email u = E
               /\ verify_password P (User.password u) = true)
  /\ (status (fst r) = 200 ->
      body (fst r) = JSONToken (Token.mk (create_access_token now E) "bearer"))
  /\ (status (fst r) <> 200 ->
      fst r = {| status := 401; body := JSONDetail "Invalid credentials" |})
  /\ snd r = w.
Proof.
  intros Hd r. subst r. step_handler.
  destruct (first (fun u => String.eqb (User.email u) E) (users w)) as [u|] eqn:Hq.
  - apply first_Some in Hq as [Hu He]. apply String.eqb_eq in He.
    destruct (verify_password P (User.password u)) eqn:Hv; simpl.
    + repeat split.
      * intros _. now exists u.
      * intros _. now rewrite He.
      * intros Hne. now contradiction Hne.
    + repeat split; try discriminate.
      intros (u' & Hu' & He' & Hv').
      assert (u' = u) as ->.
      { apply (email_determines_user (users w)); auto. congruence. }
      congruence.
  - rewrite first_None in Hq. simpl. repeat split; try discriminate.
    intros (u & Hu & He & _). specialize (Hq u Hu). simpl in Hq.
    subst E. now rewrite String.eqb_refl in Hq.
Qed.

(** C4: POST /signup answers 400 if and only if some user already has the
    e-mail; otherwise it answers 200 and appends one user row.  Hence, when
    no user has e-mail E, a first signup with E answers 200, a second one
    (whatever its password) answers 400 and leaves the store as the first
    left it. *)
Theorem signup_conflict_iff_email_exists (w : World) (user : UserCreate.t) (salt : string) :
  let taken := exists u, In u (users w) /\ User.email u = UserCreate.email user in
  let r := app (POST_signup user salt) w in
  (status (fst r) = 400 <-> taken)
  /\ (status (fst r) = 400 ->
      fst r = {| status := 400; body := JSONDetail "Email already exists" |} /\ snd r = w)
  /\ (status (fst r) <> 400 ->
      fst r = {| status := 200; body := JSONMessage "User created successfully" |}
      /\ users (snd r) =
           (users w ++ [User.mk (next_id (List.map User.id (users w)))
                                (UserCreate.email user)
                                (hash_password salt (UserCreate.password user))])%list)
  /\ (~ taken ->
      forall (again : UserCreate.t) (salt' : string),
        UserCreate.email again = UserCreate.email user ->
        let r' := app (POST_signup again salt') (snd r) in
        status (fst r) = 200 /\ status (fst r') = 400 /\ snd r' = snd r).
Proof.
  intros taken r. subst taken r. step_handler.
  destruct (first (fun u => String.eqb (User.email u) (UserCreate.email user)) (users w))
    as [u|] eqn:Hq; simpl.
  - apply first_Some in Hq as [Hu He]. apply String.eqb_eq in He.
    assert (Htaken : exists u, In u (users w) /\ User.email u = UserCreate.email user)
      by now exists u.
    split; [tauto|]. split; [tauto|]. split; [intros Hne; now contradiction Hne|].
    intros Hn. now contradiction Hn.
  - pose proof Hq as Hnone. rewrite first_None in Hnone.
    assert (Hfree : ~ exists u, In u (users w) /\ User.email u = UserCreate.email user).
    { intros (u & Hu & He). specialize (Hnone u Hu). simpl in Hnone.
      rewrite He, String.eqb_refl in Hnone. discriminate. }
    split; [split; [discriminate|tauto]|].
    split; [discriminate|]. split; [tauto|].
    intros _ again salt' Heq. rewrite Heq.
    destruct (first _ (users w ++ _)%list) as [u|] eqn:Hq2; [now simpl|].
    rewrite first_None in Hq2.
    specialize (Hq2 (User.mk (next_id (List.map User.id (users w)))
                             (UserCreate.email user)
                             (hash_password salt (UserCreate.password user)))).
    simpl in Hq2. rewrite String.eqb_refl in Hq2.
    exfalso. assert (true = false); [|discriminate]. apply Hq2.
    apply in_or_app. right. now left.
Qed.

Lemma first_app_last {A} (p : A -> bool) (rows : list A) (a : A) :
  (forall b, In b rows -> p b = false) -> p a = true ->
  first p (rows ++ [a])%list = Some a.
Proof.
  intros Hrows Ha. unfold first. induction rows as [|r rows IH]; simpl.
  - now rewrite Ha.
  - rewrite (Hrows r (or_introl eq_refl)). apply IH. intros b Hb. apply Hrows. now right.
Qed.

Lemma first_after_update (bs : list Blog.t) (B B' : Blog.t) :
  In B bs -> Blog.id B' = Blog.id B ->
  first (fun b => Z.eqb (Blog.id b) (Blog.id B))
        (List.map (fun b => if Z.eqb (Blog.id b) (Blog.id B) then B' else b) bs) = Some B'.
Proof.
  intros HB Hid. unfold first. induction bs as [|b bs IH]; simpl; [contradiction|].
  destruct (Z.eqb (Blog.id b) (Blog.id B)) eqn:Hb.
  - now rewrite Hid, Z.eqb_refl.
  - rewrite Hb. apply IH. destruct HB as [->|HB]; [|assumption].
    now rewrite Z.eqb_refl in Hb.
Qed.

(** C5: an authenticated POST /blogs/ that supplies only a title answers 200
    with a blog of that title, empty content and tags, no image and the
    caller as owner; GET /blogs/{id} on its id then returns the same blog
    and GET /blogs/ lists it. *)
Theorem post_title_only_creates_retrievable_blog (w : World) (U : User.t) (T : string)
    (os : OsOutcome) :
  let r := app (POST_blogs T None None None U os) w in
  let B := Blog.mk (next_id (List.map Blog.id (blogs w))) T "" None "" (User.id U) in
  fst r = {| status := 200; body := JSONBlog (from_orm B) |}
  /\ fst (app (GET_blogs_id (Blog.id B)) (snd r)) =
       {| status := 200; body := JSONBlog (from_orm B) |}
  /\ exists listed,
       fst (app GET_blogs (snd r)) = {| status := 200; body := JSONBlogs listed |}
       /\ In (from_orm B) listed.
Proof.
  intros r B. subst r. step_handler. split; [reflexivity|]. split.
  - rewrite (first_app_last _ (blogs w) B); [reflexivity| |apply Z.eqb_refl].
    intros b Hb. simpl. apply Z.eqb_neq. intros Heq.
    apply (next_id_fresh (List.map Blog.id (blogs w))). rewrite <- Heq.
    now apply in_map.
  - eexists. split; [reflexivity|]. apply in_map. apply in_or_app. right. now left.
Qed.

(** C6, as the code has it: an exception that no handler catches is answered
    with status 500 and the fixed detail "Internal Server Error", and its
    traceback is printed; a failed write of an upload during POST /blogs/ or
    during the owner's PUT /blogs/{id} is answered with status 500 and the
    detail "Image upload failed: " followed by the exception's message, and
    nothing is printed. *)
Theorem internal_error_responses :
  (forall (A : Type) (render : A -> Body) (handler : M A) (w w1 : World) (exc : Exception),
     handler w = (Raise (Unhandled exc), w1) ->
     serve render handler w =
       ({| status := 500; body := JSONDetail "Internal Server Error" |},
        set_stdout (stdout w1 ++ ["ERROR: " ++ format_exc exc]) w1))
  /\ (forall (w : World) (title : string) (content tags : option string)
        (image : UploadFile.t) (U : User.t) (e : Exception)
        (partial : option (list Byte.byte)),
      let r := app (POST_blogs title content tags (Some image) U (Failed e partial)) w in
      fst r = {| status := 500; body := JSONDetail ("Image upload failed: " ++ str e) |}
      /\ stdout (snd r) = stdout w)
  /\ (forall (w : World) (B : Blog.t) (U : User.t) (title content tags : option string)
        (image : UploadFile.t) (e : Exception) (partial : option (list Byte.byte)),
      distinct_ids (List.map Blog.id (blogs w)) = true ->
      In B (blogs w) ->
      User.id U = Blog.owner_id B ->
      let r := app (PUT_blogs_id (Blog.id B) title content tags (Some image) U
                                 (Failed e partial)) w in
      fst r = {| status := 500; body := JSONDetail ("Image upload failed: " ++ str e) |}
      /\ stdout (snd r) = stdout w).
Proof.
  split; [|split].
  - intros A render handler w w1 exc Hh. unfold serve. now rewrite Hh.
  - intros w title content tags image U e partial r. subst r. step_handler.
    now destruct partial.
  - intros w B U title content tags image e partial Hd HB HU r.
    destruct (put_by_owner_write_fails w B U title content tags image e partial Hd HB HU)
      as (Hr & _ & _ & Hout). now split.
Qed.

Lemma get_image_after_write (w : World) (F : string) (data : list Byte.byte) :
  disk w !! os_path_join UPLOAD_DIR F = Some data ->
  app (GET_images F) w = ({| status := 200; body := FileBytes data |}, w).
Proof.
  intros Hfile. step_handler. rewrite Hfile. simpl. now rewrite Hfile.
Qed.

(** C7, as the code has it: for a file name F that is one path segment (not
    empty, without "/"), after an upload named F with bytes [data] has been
    written, by POST /blogs/ or by the owner's PUT /blogs/{id}, GET
    /images/F answers 200 with exactly [data]; a second upload under the
    same name succeeds and replaces the file, so that GET /images/F then
    returns the bytes of the later upload. *)
Theorem segment_named_upload_round_trip (w : World) (F : string)
    (data : list Byte.byte) (U : User.t) :
  path_segment F = true ->
  (forall (title : string) (content tags : option string),
     let r := app (POST_blogs title content tags (Some (UploadFile.mk F data)) U Completed) w in
     status (fst r) = 200
     /\ GET_images_at F (snd r) = ({| status := 200; body := FileBytes data |}, snd r))
  /\ (forall (B : Blog.t) (title content tags : option string),
      distinct_ids (List.map Blog.id (blogs w)) = true ->
      In B (blogs w) ->
      User.id U = Blog.owner_id B ->
      let r := app (PUT_blogs_id (Blog.id B) title content tags
                                 (Some (UploadFile.mk F data)) U Completed) w in
      status (fst r) = 200
      /\ GET_images_at F (snd r) = ({| status := 200; body := FileBytes data |}, snd r))
  /\ (forall (title title' : string) (content tags content' tags' : option string)
        (U' : User.t) (data' : list Byte.byte),
      let r := app (POST_blogs title content tags (Some (UploadFile.mk F data)) U Completed) w in
      let r' := app (POST_blogs title' content' tags' (Some (UploadFile.mk F data')) U'
                                Completed) (snd r) in
      status (fst r) = 200 /\ status (fst r') = 200
      /\ GET_images_at F (snd r') = ({| status := 200; body := FileBytes data' |}, snd r')).
Proof.
  intros Hseg. split; [|split].
  - intros title content tags r. subst r. split; [reflexivity|].
    rewrite (GET_images_at_segment F _ Hseg).
    apply get_image_after_write. step_handler. apply lookup_insert_eq.
  - intros B title content tags Hd HB HU r. subst r.
    rewrite (put_by_owner_ok w B U title content tags (Some (UploadFile.mk F data))
               Completed Hd HB HU eq_refl).
    split; [reflexivity|]. rewrite (GET_images_at_segment F _ Hseg).
    apply get_image_after_write. simpl. apply lookup_insert_eq.
  - intros title title' content tags content' tags' U' data' r r'. subst r r'.
    split; [reflexivity|]. split; [reflexivity|].
    rewrite (GET_images_at_segment F _ Hseg).
    apply get_image_after_write. step_handler. apply lookup_insert_eq.
Qed.

(** C8: on every store GET /blogs/ and GET /blogs/all give the same
    response, status 200 with every row of the blogs table in table order
    under the one schema, and leave the store alone. *)
Theorem list_endpoints_agree (w : World) :
  app GET_blogs w = app GET_blogs_all w
  /\ app GET_blogs w =
       ({| status := 200; body := JSONBlogs (List.map from_orm (blogs w)) |}, w).
Proof. split; reflexivity. Qed.

(** C9: when the write of the image of a POST /blogs/ fails, the answer is
    500 and no row has been added: both tables are as before the request. *)
Theorem create_fails_before_any_row (w : World) (title : string)
    (content tags : option string) (image : UploadFile.t) (U : User.t)
    (e : Exception) (partial : option (list Byte.byte)) :
  let r := app (POST_blogs title content tags (Some image) U (Failed e partial)) w in
  status (fst r) = 500 /\ blogs (snd r) = blogs w /\ users (snd r) = users w.
Proof. intros r. subst r. step_handler. now destruct partial. Qed.

(** C10, as the code has it: [update_blog] skips only [None]; handed the
    empty string for title (or content, or tags) it stores the empty string
    in that field and leaves the other two alone.  Over HTTP it is never
    handed one: a form field sent empty reaches it as [None].  So in the
    owner's PUT a field sent empty keeps its value, exactly as a field that
    is not sent does, and a field sent with a non-empty value takes that
    value. *)
Theorem put_empty_form_field_is_an_omission (w : World) (B : Blog.t) (U : User.t)
    (title content tags : option string) (os : OsOutcome) :
  distinct_ids (List.map Blog.id (blogs w)) = true ->
  In B (blogs w) ->
  User.id U = Blog.owner_id B ->
  let sent_or (old : string) (sent : option string) :=
    match sent with
    | Some v => if String.eqb v "" then old else v
    | None => old
    end in
  let stored (w' : World) := first (fun b => Z.eqb (Blog.id b) (Blog.id B)) (blogs w') in
  let r := PUT_blogs_id_form (Blog.id B) title content tags None U os w in
  (status (fst r) = 200
   /\ exists B',
        body (fst r) = JSONBlog (from_orm B') /\ stored (snd r) = Some B'
        /\ Blog.title B' = sent_or (Blog.title B) title
        /\ Blog.content B' = sent_or (Blog.content B) content
        /\ Blog.tags B' = sent_or (Blog.tags B) tags
        /\ Blog.image B' = Blog.image B
        /\ Blog.id B' = Blog.id B /\ Blog.owner_id B' = Blog.owner_id B)
  /\ (exists B' w',
        update_blog (Blog.id B) (Some "") None None None U os w = (Return B', w')
        /\ stored w' = Some B'
        /\ Blog.title B' = "" /\ Blog.content B' = Blog.content B
        /\ Blog.tags B' = Blog.tags B)
  /\ (exists B' w',
        update_blog (Blog.id B) None (Some "") None None U os w = (Return B', w')
        /\ stored w' = Some B'
        /\ Blog.title B' = Blog.title B /\ Blog.content B' = ""
        /\ Blog.tags B' = Blog.tags B)
  /\ (exists B' w',
        update_blog (Blog.id B) None None (Some "") None U os w = (Return B', w')
        /\ stored w' = Some B'
        /\ Blog.title B' = Blog.title B /\ Blog.content B' = Blog.content B
        /\ Blog.tags B' = "").
Proof.
  intros Hd HB HU sent_or stored r. subst sent_or stored r.
  split; [|split; [|split]].
  - rewrite PUT_blogs_id_form_decoded.
    rewrite (put_by_owner_ok w B U _ _ _ None os Hd HB HU eq_refl).
    cbn [fst snd status body blogs]. split; [reflexivity|].
    eexists. split; [reflexivity|].
    split; [apply first_after_update; [assumption|apply updated_id]|].
    unfold form_value.
    destruct title as [t|]; [destruct (String.eqb t "")|];
      (destruct content as [c|]; [destruct (String.eqb c "")|]);
      (destruct tags as [g|]; [destruct (String.eqb g "")|]);
      repeat split; reflexivity.
  - unfold update_blog, bind, gets, ret, update_row, modify. simpl.
    rewrite (owner_query_finds (blogs w) B (User.id U) Hd HB HU). simpl.
    eexists _, _. split; [reflexivity|]. simpl.
    split; [now apply first_after_update|]. repeat split.
  - unfold update_blog, bind, gets, ret, update_row, modify. simpl.
    rewrite (owner_query_finds (blogs w) B (User.id U) Hd HB HU). simpl.
    eexists _, _. split; [reflexivity|]. simpl.
    split; [now apply first_after_update|]. repeat split.
  - unfold update_blog, bind, gets, ret, update_row, modify. simpl.
    rewrite (owner_query_finds (blogs w) B (User.id U) Hd HB HU). simpl.
    eexists _, _. split; [reflexivity|]. simpl.
    split; [now apply first_after_update|]. repeat split.
Qed.

(** ** Further properties of the handlers *)

(** The row [create_blog] builds. *)
Lemma post_blogs_ok (w : World) (title : string) (content tags : option string)
    (image : option UploadFile.t) (U : User.t) (os : OsOutcome) :
  upload_succeeds image os = true ->
  let path := option_map (fun f => os_path_join UPLOAD_DIR (UploadFile.filename f)) image in
  let B := Blog.mk (next_id (List.map Blog.id (blogs w))) title (default "" content)
                   path (default "" tags) (User.id U) in
  app (POST_blogs title content tags image U os) w =
    ({| status := 200; body := JSONBlog (from_orm B) |},
     {| users := users w;
        blogs := (blogs w ++ [B])%list;
        disk := match image with
                | None => disk w
                | Some f =>
                    <[os_path_join UPLOAD_DIR (UploadFile.filename f) := UploadFile.file f]>
                      (disk w)
                end;
        stdout := stdout w |}).
Proof.
  intros Hup path B. subst path B. step_handler.
  destruct image as [f|]; simpl; [|reflexivity].
  destruct os as [|e partial]; [reflexivity|discriminate Hup].
Qed.

Lemma delete_by_owner_ok (w : World) (B : Blog.t) (U : User.t) :
  distinct_ids (List.map Blog.id (blogs w)) = true ->
  In B (blogs w) ->
  User.id U = Blog.owner_id B ->
  app (DELETE_blogs_id (Blog.id B) U) w =
    ({| status := 200; body := JSONMessage "Blog deleted" |},
     set_blogs (List.filter (fun b => negb (Z.eqb (Blog.id b) (Blog.id B))) (blogs w)) w).
Proof.
  intros Hd HB HU. step_handler.
  now rewrite (owner_query_finds (blogs w) B (User.id U) Hd HB HU).
Qed.

Lemma filter_keeps_all {A} (p : A -> bool) (rows : list A) :
  (forall a, In a rows -> p a = true) -> List.filter p rows = rows.
Proof.
  intros Hp. induction rows as [|r rows IH]; simpl; [reflexivity|].
  rewrite (Hp r (or_introl eq_refl)). f_equal. apply IH. intros a Ha. apply Hp. now right.
Qed.

Lemma new_key_differs (bs : list Blog.t) (b : Blog.t) :
  In b bs -> Z.eqb (Blog.id b) (next_id (List.map Blog.id bs)) = false.
Proof.
  intros Hb. apply Z.eqb_neq. intros Heq.
  apply (next_id_fresh (List.map Blog.id bs)). rewrite <- Heq. now apply in_map.
Qed.

(** X2: POST /blogs/ answers 200 exactly when the upload, if there is one, is
    written.  It then appends one row to the blogs table, with the supplied
    title, the supplied or empty content and tags, the caller as owner and,
    for an upload, the path under which the uploaded bytes now are on disk;
    the users table is as before. *)
Theorem post_blogs_appends_one_row (w : World) (title : string)
    (content tags : option string) (image : option UploadFile.t) (U : User.t)
    (os : OsOutcome) :
  let r := app (POST_blogs title content tags image U os) w in
  (status (fst r) = 200 <-> upload_succeeds image os = true)
  /\ (status (fst r) = 200 ->
      exists B : Blog.t,
        body (fst r) = JSONBlog (from_orm B)
        /\ blogs (snd r) = (blogs w ++ [B])%list
        /\ users (snd r) = users w
        /\ ~ In (Blog.id B) (List.map Blog.id (blogs w))
        /\ Blog.title B = title
        /\ Blog.content B = default "" content
        /\ Blog.tags B = default "" tags
        /\ Blog.owner_id B = User.id U
        /\ match image with
           | None => Blog.image B = None /\ disk (snd r) = disk w
           | Some f =>
               exists path, Blog.image B = Some path
                            /\ disk (snd r) !! path = Some (UploadFile.file f)
           end).
Proof.
  intros r. destruct (upload_succeeds image os) eqn:Hup.
  - pose proof (post_blogs_ok w title content tags image U os Hup) as Hok.
    cbv zeta in Hok. subst r. rewrite Hok. simpl. split; [tauto|]. intros _.
    eexists. split; [reflexivity|]. simpl.
    repeat (split; [try reflexivity; apply next_id_fresh|]).
    destruct image as [f|]; simpl; [|split; reflexivity].
    eexists. split; [reflexivity|]. apply lookup_insert_eq.
  - destruct image as [f|]; [|discriminate Hup].
    destruct os as [|e partial]; [discriminate Hup|].
    subst r. step_handler. destruct partial; simpl; split;
      (split; intros; discriminate) || (intros; discriminate).
Qed.

(** X3: The owner's DELETE answers 200 and removes the blog and nothing else:
    every other row stays, no row appears, users and files are as before;
    afterwards GET /blogs/{id} and a second DELETE both answer 404. *)
Theorem owner_delete_removes_only_that_blog (w : World) (B : Blog.t) (U : User.t) :
  distinct_ids (List.map Blog.id (blogs w)) = true ->
  In B (blogs w) ->
  User.id U = Blog.owner_id B ->
  let r := app (DELETE_blogs_id (Blog.id B) U) w in
  fst r = {| status := 200; body := JSONMessage "Blog deleted" |}
  /\ (forall b, In b (blogs (snd r)) <-> In b (blogs w) /\ b <> B)
  /\ users (snd r) = users w
  /\ disk (snd r) = disk w
  /\ fst (app (GET_blogs_id (Blog.id B)) (snd r)) =
       {| status := 404; body := JSONDetail "Blog not found" |}
  /\ app (DELETE_blogs_id (Blog.id B) U) (snd r) =
       ({| status := 404; body := JSONDetail "Blog not found or unauthorized" |}, snd r).
Proof.
  intros Hd HB HU r. subst r. rewrite (delete_by_owner_ok w B U Hd HB HU). simpl.
  assert (Hgone : forall b,
            In b (List.filter (fun b => negb (Z.eqb (Blog.id b) (Blog.id B))) (blogs w)) ->
            Z.eqb (Blog.id b) (Blog.id B) = false).
  { intros b Hb. apply filter_In in Hb as [_ Hb]. now apply negb_true_iff in Hb. }
  split; [reflexivity|]. split; [|split; [reflexivity|split; [reflexivity|split]]].
  - intros b. rewrite filter_In, negb_true_iff, Z.eqb_neq. split.
    + intros [Hb Hne]. split; [assumption|]. intros ->. now apply Hne.
    + intros [Hb Hne]. split; [assumption|]. intros Hi. apply Hne.
      exact (key_determines_row Blog.id (blogs w) b B Hd Hb HB Hi).
  - step_handler.
    replace (first _ _) with (@None Blog.t); [reflexivity|].
    symmetry. apply first_None. exact Hgone.
  - step_handler.
    replace (first _ _) with (@None Blog.t); [reflexivity|].
    symmetry. apply first_None. intros b Hb. simpl. now rewrite (Hgone b Hb).
Qed.

Lemma delete_of_last_created (w1 : World) (bs : list Blog.t) (B : Blog.t) (U : User.t) :
  blogs w1 = (bs ++ [B])%list ->
  Blog.id B = next_id (List.map Blog.id bs) ->
  Blog.owner_id B = User.id U ->
  app (DELETE_blogs_id (next_id (List.map Blog.id bs)) U) w1 =
    ({| status := 200; body := JSONMessage "Blog deleted" |}, set_blogs bs w1).
Proof.
  intros Hbs Hid Hown. step_handler. rewrite Hbs.
  rewrite (first_app_last _ bs B).
  - simpl. rewrite Hbs, List.filter_app. simpl. rewrite Z.eqb_refl. simpl.
    rewrite app_nil_r, filter_keeps_all; [reflexivity|].
    intros b Hb. now rewrite Hid, new_key_differs.
  - intros b Hb. simpl. now rewrite new_key_differs.
  - simpl. now rewrite Hid, Hown, !Z.eqb_refl.
Qed.

(** X4: A blog that is created and then deleted by its author leaves the blogs
    and users tables exactly as they were before the two requests; the
    uploaded file, if there was one, stays on disk. *)
Theorem create_then_delete_restores_tables (w : World) (title : string)
    (content tags : option string) (image : option UploadFile.t) (U : User.t)
    (os : OsOutcome) :
  upload_succeeds image os = true ->
  let r := app (POST_blogs title content tags image U os) w in
  let r' := app (DELETE_blogs_id (next_id (List.map Blog.id (blogs w))) U) (snd r) in
  fst r' = {| status := 200; body := JSONMessage "Blog deleted" |}
  /\ blogs (snd r') = blogs w
  /\ users (snd r') = users w
  /\ disk (snd r') = disk (snd r).
Proof.
  intros Hup r r'. subst r r'.
  pose proof (post_blogs_ok w title content tags image U os Hup) as Hok.
  cbv zeta in Hok. rewrite Hok. cbn [fst snd].
  erewrite (delete_of_last_created _ (blogs w) _ U); [|reflexivity..]. simpl. repeat split.
Qed.

(** X5: Deleting a blog does not delete its image: after a POST /blogs/ with an
    upload named F, one path segment, and the DELETE of that blog, the blogs
    table is as before the two requests and GET /images/F still answers 200
    with the uploaded bytes. *)
Theorem delete_keeps_image_file (w : World) (title : string)
    (content tags : option string) (F : string) (data : list Byte.byte) (U : User.t) :
  path_segment F = true ->
  let r := app (POST_blogs title content tags (Some (UploadFile.mk F data)) U Completed) w in
  let r' := app (DELETE_blogs_id (next_id (List.map Blog.id (blogs w))) U) (snd r) in
  status (fst r) = 200 /\ status (fst r') = 200
  /\ blogs (snd r') = blogs w
  /\ GET_images_at F (snd r') = ({| status := 200; body := FileBytes data |}, snd r').
Proof.
  intros Hseg r r'. subst r r'.
  pose proof (post_blogs_ok w title content tags (Some (UploadFile.mk F data)) U Completed
                eq_refl) as Hok.
  cbv zeta in Hok. rewrite Hok. cbn [fst snd].
  erewrite (delete_of_last_created _ (blogs w) _ U); [|reflexivity..]. simpl.
  split; [reflexivity|]. split; [reflexivity|]. split; [reflexivity|].
  rewrite (GET_images_at_segment F _ Hseg).
  apply get_image_after_write. simpl. apply lookup_insert_eq.
Qed.

(** X6: After the owner's successful PUT, GET /blogs/{id} returns the body the
    PUT answered with, and GET /blogs/ lists it. *)
Theorem put_then_get_reads_the_update (w : World) (B : Blog.t) (U : User.t)
    (title content tags : option string) (image : option UploadFile.t) (os : OsOutcome) :
  distinct_ids (List.map Blog.id (blogs w)) = true ->
  In B (blogs w) ->
  User.id U = Blog.owner_id B ->
  upload_succeeds image os = true ->
  let r := app (PUT_blogs_id (Blog.id B) title content tags image U os) w in
  status (fst r) = 200
  /\ fst (app (GET_blogs_id (Blog.id B)) (snd r)) = fst r
  /\ exists listed,
       fst (app GET_blogs (snd r)) = {| status := 200; body := JSONBlogs listed |}
       /\ (forall b', body (fst r) = JSONBlog b' -> In b' listed)
       /\ length listed = length (blogs w).
Proof.
  intros Hd HB HU Hup r. subst r.
  pose proof (put_by_owner_ok w B U title content tags image os Hd HB HU Hup) as Hok.
  cbv zeta in Hok. rewrite Hok. cbn [fst snd status]. split; [reflexivity|]. split.
  - step_handler.
    now rewrite (first_after_update (blogs w) B _ HB (updated_id B title content tags image)).
  - step_handler. eexists. split; [reflexivity|]. split.
    + intros b' Hb'. injection Hb' as <-. apply in_map. apply in_map_iff.
      exists B. split; [|assumption]. now rewrite Z.eqb_refl.
    + now rewrite !length_map.
Qed.

Lemma updated_twice (B : Blog.t) (title content tags : option string)
    (image : option UploadFile.t) :
  updated (updated B title content tags image) title content tags image
  = updated B title content tags image.
Proof. now destruct title, content, tags, image. Qed.

(** X7: The owner's PUT is idempotent: sending the same successful PUT a second
    time gives the same answer and leaves the store as the first left it. *)
Theorem put_is_idempotent (w : World) (B : Blog.t) (U : User.t)
    (title content tags : option string) (image : option UploadFile.t) (os : OsOutcome) :
  distinct_ids (List.map Blog.id (blogs w)) = true ->
  In B (blogs w) ->
  User.id U = Blog.owner_id B ->
  upload_succeeds image os = true ->
  let put := app (PUT_blogs_id (Blog.id B) title content tags image U os) in
  put (snd (put w)) = put w.
Proof.
  intros Hd HB HU Hup put. subst put.
  pose proof (put_by_owner_ok w B U title content tags image os Hd HB HU Hup) as Hok.
  cbv zeta in Hok. rewrite Hok. cbn [fst snd].
  set (B' := updated B title content tags image) in *.
  set (w1 := {| users := users w; blogs := _; disk := _; stdout := stdout w |}).
  assert (Hid : Blog.id B' = Blog.id B) by apply updated_id.
  assert (Hd1 : distinct_ids (List.map Blog.id (blogs w1)) = true).
  { simpl. now rewrite ids_after_update. }
  assert (HB1 : In B' (blogs w1)).
  { simpl. apply in_map_iff. exists B. split; [|assumption]. now rewrite Z.eqb_refl. }
  assert (HU1 : User.id U = Blog.owner_id B').
  { rewrite HU. subst B'. now destruct title, content, tags, image. }
  pose proof (put_by_owner_ok w1 B' U title content tags image os Hd1 HB1 HU1 Hup) as Hok1.
  cbv zeta in Hok1. rewrite Hid in Hok1. rewrite Hok1. subst B'.
  rewrite updated_twice. f_equal. subst w1. simpl. f_equal.
  - rewrite List.map_map. apply map_ext. intros b.
    destruct (Z.eqb (Blog.id b) (Blog.id B)) eqn:Hb; [|now rewrite Hb].
    now rewrite updated_id, Z.eqb_refl.
  - destruct image as [f|]; [|reflexivity]. apply insert_insert_eq.
Qed.

(** X8: What a request can change: only POST /signup changes the users table;
    only POST, PUT and DELETE on /blogs change the blogs table; only a POST
    or PUT that carries an upload changes the files. *)
Theorem requests_change_only_their_own_state (r : Request) (w : World) :
  let w' := snd (app r w) in
  match r with
  | POST_signup _ _ => True
  | _ => users w' = users w
  end
  /\ match r with
     | POST_blogs _ _ _ _ _ _ | DELETE_blogs_id _ _ | PUT_blogs_id _ _ _ _ _ _ _ => True
     | _ => blogs w' = blogs w
     end
  /\ match r with
     | POST_blogs _ _ _ (Some _) _ _ | PUT_blogs_id _ _ _ _ (Some _) _ _ => True
     | _ => disk w' = disk w
     end.
Proof.
  intros w'. subst w'. destruct r; step_handler.
  - destruct (first _ (users w)); simpl; auto.
  - destruct (first _ (users w)) as [u|]; simpl; auto.
    destruct (verify_password _ _); simpl; auto.
  - destruct image as [f|]; simpl; auto.
    destruct os as [|e [written|]]; simpl; auto.
  - auto.
  - destruct (bool_decide _); simpl; auto.
  - destruct (first _ (blogs w)); simpl; auto.
  - destruct image as [f|]; destruct (first _ (blogs w)) as [b|]; simpl; auto.
    destruct os as [|e [written|]]; simpl; auto.
  - auto.
  - destruct (first _ (blogs w)); simpl; auto.
Qed.

Lemma users_after_request (r : Request) (w : World) :
  exists added, users (snd (app r w)) = (users w ++ added)%list /\ (length added <= 1)%nat.
Proof.
  destruct r; step_handler;
    try (exists []; rewrite app_nil_r; split; [reflexivity|simpl; lia]).
  - destruct (first _ (users w)); simpl.
    + exists []. rewrite app_nil_r. split; [reflexivity|simpl; lia].
    + eexists [_]. split; [reflexivity|simpl; lia].
  - exists []. rewrite app_nil_r. split; [|simpl; lia].
    destruct (first _ (users w)) as [u|]; simpl; auto.
    destruct (verify_password _ _); simpl; auto.
  - exists []. rewrite app_nil_r. split; [|simpl; lia].
    destruct image as [f|]; simpl; auto.
    destruct os as [|e [written|]]; simpl; auto.
  - exists []. rewrite app_nil_r. split; [|simpl; lia].
    destruct (bool_decide _); simpl; auto.
  - exists []. rewrite app_nil_r. split; [|simpl; lia].
    destruct (first _ (blogs w)); simpl; auto.
  - exists []. rewrite app_nil_r. split; [|simpl; lia].
    destruct (first _ (blogs w)) as [b|]; simpl; auto.
    destruct image as [f|]; simpl; auto.
    destruct os as [|e [written|]]; simpl; auto.
  - exists []. rewrite app_nil_r. split; [|simpl; lia].
    destruct (first _ (blogs w)); simpl; auto.
Qed.

(** X9: No sequence of requests alters or removes a user row: the users table
    afterwards is the table before followed by the rows signed up since, at
    most one per request. *)
Theorem users_only_grow (rs : list Request) (w : World) :
  exists added,
    users (run hash_password verify_password create_access_token rs w)
    = (users w ++ added)%list
    /\ (length added <= length rs)%nat.
Proof.
  revert w. induction rs as [|r rs IH]; intros w; simpl.
  - exists []. now rewrite app_nil_r.
  - destruct (users_after_request r w) as (a1 & H1 & L1).
    destruct (IH (snd (app r w))) as (a2 & H2 & L2).
    exists (a1 ++ a2)%list. rewrite H2, H1, <- app_assoc. split; [reflexivity|].
    rewrite length_app. lia.
Qed.

(** The rows of the blogs table after one request, traced back: a row is a
    row from before, or the row just created for the caller under a new key,
    or the caller's own row rewritten with its key and owner kept. *)
Lemma blogs_after_request (r : Request) (w : World) (b' : Blog.t) :
  In b' (blogs (snd (app r w))) ->
  In b' (blogs w)
  \/ (exists U, caller r = Some U /\ Blog.owner_id b' = User.id U
                /\ ~ In (Blog.id b') (List.map Blog.id (blogs w)))
  \/ (exists b U, In b (blogs w) /\ caller r = Some U
                  /\ Blog.owner_id b = User.id U
                  /\ Blog.id b' = Blog.id b /\ Blog.owner_id b' = Blog.owner_id b).
Proof.
  destruct r; step_handler.
  - destruct (first _ (users w)); simpl; auto.
  - destruct (first _ (users w)) as [u|]; simpl; auto.
    destruct (verify_password _ _); simpl; auto.
  - assert (Hnew : forall B, In b' (blogs w ++ [B])%list ->
                     Blog.id B = next_id (List.map Blog.id (blogs w)) ->
                     Blog.owner_id B = User.id current_user ->
                     In b' (blogs w)
                     \/ (exists U, Some current_user = Some U
                                   /\ Blog.owner_id b' = User.id U
                                   /\ ~ In (Blog.id b') (List.map Blog.id (blogs w)))
                     \/ (exists b U, In b (blogs w) /\ Some current_user = Some U
                           /\ Blog.owner_id b = User.id U
                           /\ Blog.id b' = Blog.id b /\ Blog.owner_id b' = Blog.owner_id b)).
    { intros B Hin Hid Hown. apply in_app_or in Hin as [Hin|[<-|[]]]; [now left|].
      right. left. exists current_user. split; [reflexivity|]. split; [assumption|].
      rewrite Hid. apply next_id_fresh. }
    destruct image as [f|]; simpl.
    + destruct os as [|e [written|]]; simpl; auto. intros Hin. now apply (Hnew _ Hin).
    + intros Hin. now apply (Hnew _ Hin).
  - auto.
  - destruct (bool_decide _); simpl; auto.
  - destruct (first _ (blogs w)); simpl; auto.
    intros Hin. apply filter_In in Hin. tauto.
  - destruct (first _ (blogs w)) as [b|] eqn:Hq; simpl; auto.
    apply first_Some in Hq as [Hb Hp]. apply andb_true_iff in Hp as [_ Hown].
    apply Z.eqb_eq in Hown.
    assert (Hmap : forall k B', k = Blog.id b ->
              Blog.id B' = Blog.id b -> Blog.owner_id B' = Blog.owner_id b ->
              In b' (List.map (fun x => if Z.eqb (Blog.id x) k then B' else x) (blogs w)) ->
              In b' (blogs w)
              \/ (exists U, Some current_user = Some U
                            /\ Blog.owner_id b' = User.id U
                            /\ ~ In (Blog.id b') (List.map Blog.id (blogs w)))
              \/ (exists b0 U, In b0 (blogs w) /\ Some current_user = Some U
                    /\ Blog.owner_id b0 = User.id U
                    /\ Blog.id b' = Blog.id b0 /\ Blog.owner_id b' = Blog.owner_id b0)).
    { intros k B' -> Hid Ho Hin. apply in_map_iff in Hin as (x & Hx & Hxin).
      destruct (Z.eqb (Blog.id x) (Blog.id b)); [|subst; now left].
      subst b'. right. right. exists b, current_user. auto. }
    destruct image as [f|]; simpl.
    + destruct os as [|e [written|]]; simpl; auto.
      apply Hmap; now destruct title, content, tags.
    + apply Hmap; now destruct title, content, tags.
  - auto.
  - destruct (first _ (blogs w)); simpl; auto.
Qed.

(** X10: No request changes the owner of a blog: a row found after a request
    under the key of a row from before has that row's owner. *)
Theorem owner_never_changes (r : Request) (w : World) (B B' : Blog.t) :
  distinct_ids (List.map Blog.id (blogs w)) = true ->
  In B (blogs w) ->
  In B' (blogs (snd (app r w))) ->
  Blog.id B' = Blog.id B ->
  Blog.owner_id B' = Blog.owner_id B.
Proof.
  intros Hd HB HB' Hid.
  destruct (blogs_after_request r w B' HB')
    as [Hold|[(U & _ & _ & Hnew)|(b & U & Hb & _ & _ & Hkey & Hown)]].
  - now rewrite (key_determines_row Blog.id (blogs w) B' B Hd Hold HB Hid).
  - exfalso. apply Hnew. rewrite Hid. now apply in_map.
  - rewrite Hown. f_equal.
    apply (key_determines_row Blog.id (blogs w) b B Hd Hb HB). congruence.
Qed.

(** X11: A blog is changed or removed only by a request of its owner: after any
    request whose caller, if it has one, is not the owner, the row is in
    the table exactly as it was. *)
Theorem only_the_owner_changes_a_blog (r : Request) (w : World) (B : Blog.t) :
  distinct_ids (List.map Blog.id (blogs w)) = true ->
  In B (blogs w) ->
  (forall U, caller r = Some U -> User.id U <> Blog.owner_id B) ->
  In B (blogs (snd (app r w))).
Proof.
  intros Hd HB Hcaller. destruct r; step_handler.
  - destruct (first _ (users w)); simpl; auto.
  - destruct (first _ (users w)) as [u|]; simpl; auto.
    destruct (verify_password _ _); simpl; auto.
  - destruct image as [f|]; simpl.
    + destruct os as [|e [written|]]; simpl; auto. apply in_or_app. now left.
    + apply in_or_app. now left.
  - auto.
  - destruct (bool_decide _); simpl; auto.
  - destruct (first _ (blogs w)) as [b|] eqn:Hq; simpl; auto.
    apply first_Some in Hq as [Hb Hp]. apply andb_true_iff in Hp as [_ Hown].
    apply Z.eqb_eq in Hown. apply filter_In. split; [assumption|].
    apply negb_true_iff, Z.eqb_neq. intros Hi.
    apply (Hcaller current_user eq_refl).
    now rewrite (key_determines_row Blog.id (blogs w) B b Hd HB Hb Hi).
  - destruct (first _ (blogs w)) as [b|] eqn:Hq; simpl; auto.
    apply first_Some in Hq as [Hb Hp]. apply andb_true_iff in Hp as [_ Hown].
    apply Z.eqb_eq in Hown.
    assert (Hne : Blog.id B <> Blog.id b).
    { intros Hi. apply (Hcaller current_user eq_refl).
      now rewrite (key_determines_row Blog.id (blogs w) B b Hd HB Hb Hi). }
    assert (Hmap : forall k B', k = Blog.id b ->
              In B (List.map (fun x => if Z.eqb (Blog.id x) k then B' else x) (blogs w))).
    { intros k B' ->. apply in_map_iff. exists B. split; [|assumption].
      apply Z.eqb_neq in Hne. now rewrite Hne. }
    destruct image as [f|]; simpl.
    + destruct os as [|e [written|]]; simpl; auto.
      apply Hmap; now destruct title, content, tags.
    + apply Hmap; now destruct title, content, tags.
  - auto.
  - destruct (first _ (blogs w)); simpl; auto.
Qed.

(** X12: For an id in the 64-bit range, GET /blogs/{id} answers 200 with a
    stored row of that key exactly when the key is in the table, and 404
    "Blog not found" otherwise, on an empty table in particular; the store
    is not changed. *)
Theorem get_blog_by_id_found_iff (w : World) (id : Z) :
  fits_integer_column id = true ->
  let r := app (GET_blogs_id id) w in
  (status (fst r) = 200 <-> In id (List.map Blog.id (blogs w)))
  /\ (status (fst r) = 200 ->
      exists B, In B (blogs w) /\ Blog.id B = id /\ body (fst r) = JSONBlog (from_orm B))
  /\ (status (fst r) <> 200 ->
      fst r = {| status := 404; body := JSONDetail "Blog not found" |})
  /\ snd r = w.
Proof.
  intros _ r. subst r. step_handler.
  destruct (first (fun b => Z.eqb (Blog.id b) id) (blogs w)) as [B|] eqn:Hq; simpl.
  - apply first_Some in Hq as [HB Hid]. apply Z.eqb_eq in Hid.
    split; [split; [intros _; rewrite <- Hid; now apply in_map|reflexivity]|].
    split; [intros _; now exists B|]. split; [intros Hne; now contradiction Hne|reflexivity].
  - rewrite first_None in Hq.
    split; [split; [discriminate|]|].
    + intros Hin. apply in_map_iff in Hin as (B & Hid & HB).
      specialize (Hq B HB). simpl in Hq. apply Z.eqb_neq in Hq. contradiction.
    + split; [discriminate|]. split; reflexivity.
Qed.

(** X13: For an id in the 64-bit range, PUT and DELETE on /blogs/{id} answer
    404 exactly when the table has no row with that key owned by the caller
    (no such key at all included), and then they leave the store as it was;
    DELETE answers 200 otherwise. *)
Theorem mutation_not_found_iff_no_owned_row (w : World) (id : Z) (U : User.t)
    (title content tags : option string) (image : option UploadFile.t) (os : OsOutcome) :
  fits_integer_column id = true ->
  let owned := exists b, In b (blogs w) /\ Blog.id b = id /\ Blog.owner_id b = User.id U in
  let put := app (PUT_blogs_id id title content tags image U os) w in
  let del := app (DELETE_blogs_id id U) w in
  (status (fst put) = 404 <-> ~ owned)
  /\ (status (fst del) = 404 <-> ~ owned)
  /\ (status (fst del) = 200 <-> owned)
  /\ (~ owned -> snd put = w /\ snd del = w).
Proof.
  intros _ owned put del. subst owned put del. step_handler.
  destruct (first _ (blogs w)) as [b|] eqn:Hq; simpl.
  - apply first_Some in Hq as [Hb Hp]. apply andb_true_iff in Hp as [Hid Hown].
    apply Z.eqb_eq in Hid. apply Z.eqb_eq in Hown.
    assert (Howned : exists b, In b (blogs w) /\ Blog.id b = id
                               /\ Blog.owner_id b = User.id U) by now exists b.
    split; [|split; [|split]].
    + split; [|tauto]. intros H404. exfalso.
      destruct image as [f|]; simpl in H404; [|discriminate].
      destruct os as [|e [written|]]; discriminate.
    + split; [discriminate|tauto].
    + tauto.
    + tauto.
  - rewrite first_None in Hq.
    assert (Hnone : ~ exists b, In b (blogs w) /\ Blog.id b = id
                               /\ Blog.owner_id b = User.id U).
    { intros (b & Hb & Hid & Hown). specialize (Hq b Hb). simpl in Hq.
      rewrite Hid, Hown, !Z.eqb_refl in Hq. discriminate. }
    split; [tauto|]. split; [tauto|]. split; [|tauto].
    split; [discriminate|tauto].
Qed.

(** X14: A user who has just signed up can log in: after a signup with a free
    e-mail, a login with that e-mail answers 200 exactly when the password
    verifies against the hash the signup stored, and 401 otherwise. *)
Theorem signup_then_login (w : World) (user : UserCreate.t) (salt P : string) (now : Z) :
  (forall u, In u (users w) -> User.email u <> UserCreate.email user) ->
  let r := app (POST_signup user salt) w in
  let r' := app (POST_login (OAuth2PasswordRequestForm.mk (UserCreate.email user) P) now)
                (snd r) in
  status (fst r) = 200
  /\ (status (fst r') = 200 <->
      verify_password P (hash_password salt (UserCreate.password user)) = true)
  /\ (status (fst r') <> 200 ->
      fst r' = {| status := 401; body := JSONDetail "Invalid credentials" |}).
Proof.
  intros Hfree r r'. subst r r'. step_handler.
  assert (Hold : forall u, In u (users w) ->
            String.eqb (User.email u) (UserCreate.email user) = false).
  { intros u Hu. apply String.eqb_neq. now apply Hfree. }
  replace (first _ (users w)) with (@None User.t)
    by (symmetry; apply first_None; exact Hold).
  simpl. rewrite first_app_last; [|exact Hold|apply String.eqb_refl]. simpl.
  destruct (verify_password P _); simpl.
  - split; [reflexivity|]. split; [tauto|]. intros Hne. now contradiction Hne.
  - split; [reflexivity|]. split; [split; discriminate|reflexivity].
Qed.

Lemma known_user_stays (us added : list User.t) (k : Z) :
  existsb (fun v => Z.eqb (User.id v) k) us = true ->
  existsb (fun v => Z.eqb (User.id v) k) (us ++ added)%list = true.
Proof. intros H. rewrite existsb_app, H. reflexivity. Qed.

(** X15: The owner of every blog stays a user: when each blog's owner_id is the
    key of a user row and the caller of the request (if the route has one)
    is a user row, the same holds after the request. *)
Theorem owners_exist_preserved (r : Request) (w : World) :
  owners_exist w = true ->
  caller_persisted r w = true ->
  owners_exist (snd (app r w)) = true.
Proof.
  unfold owners_exist, caller_persisted. intros Hfk Hcaller.
  rewrite forallb_forall in Hfk. apply forallb_forall. intros b' Hb'.
  destruct (users_after_request r w) as (added & -> & _).
  apply known_user_stays.
  destruct (blogs_after_request r w b' Hb')
    as [Hold|[(U & HU & Hown & _)|(b & U & Hb & _ & _ & _ & Hown)]].
  - now apply Hfk.
  - rewrite HU in Hcaller. now rewrite Hown.
  - rewrite Hown. now apply Hfk.
Qed.

(** X16: Where an upload lands: POST /blogs/ writes the bytes under "uploads/"
    followed by the client's file name, unless that name starts with "/",
    in which case the bytes are written at that absolute path; the created
    row's image is the path written. *)
Theorem upload_lands_at_joined_path (w : World) (title : string)
    (content tags : option string) (F : string) (data : list Byte.byte) (U : User.t) :
  let r := app (POST_blogs title content tags (Some (UploadFile.mk F data)) U Completed) w in
  let path := if String.prefix "/" F then F else "uploads/" ++ F in
  status (fst r) = 200
  /\ disk (snd r) !! path = Some data
  /\ exists B, body (fst r) = JSONBlog (from_orm B) /\ Blog.image B = Some path.
Proof.
  intros r path. subst r path.
  assert (Hjoin : os_path_join UPLOAD_DIR F
                  = if String.prefix "/" F then F else "uploads/" ++ F).
  { unfold os_path_join. now destruct (String.prefix "/" F). }
  pose proof (post_blogs_ok w title content tags (Some (UploadFile.mk F data)) U Completed
                eq_refl) as Hok.
  cbv zeta in Hok. rewrite Hok. cbn [fst snd disk body status option_map UploadFile.filename
                                     UploadFile.file].
  rewrite Hjoin. split; [reflexivity|]. split; [apply lookup_insert_eq|].
  eexists. split; [reflexivity|]. reflexivity.
Qed.

End Properties.

(** ** The properties at work on a small store *)

(** Bob, who does not own blog 1, can neither change nor delete it. *)
Lemma non_owner_put_delete_not_found_witness :
  distinct_ids (List.map Blog.id (blogs small_world)) = true
  /\ In first_post (blogs small_world)
  /\ User.id bob <> Blog.owner_id first_post
  /\ sample_app (PUT_blogs_id (Blog.id first_post) (Some "mine now") None None None bob
                              Completed) small_world =
       ({| status := 404; body := JSONDetail "Blog not found or unauthorized" |}, small_world)
  /\ sample_app (DELETE_blogs_id (Blog.id first_post) bob) small_world =
       ({| status := 404; body := JSONDetail "Blog not found or unauthorized" |}, small_world).
Proof.
  assert (Hd : distinct_ids (List.map Blog.id (blogs small_world)) = true) by reflexivity.
  assert (HB : In first_post (blogs small_world)) by (simpl; left; reflexivity).
  assert (HU : User.id bob <> Blog.owner_id first_post) by (simpl; lia).
  split; [exact Hd|]. split; [exact HB|]. split; [exact HU|].
  exact (non_owner_put_delete_not_found sample_hash_password sample_verify_password
           sample_create_access_token small_world first_post bob
           (Some "mine now") None None None Completed Hd HB HU).
Defined.

(** Alice changes only the tags of her blog. *)
Lemma put_changes_exactly_supplied_fields_witness :
  let r := sample_app (PUT_blogs_id (Blog.id first_post) None None (Some "poultry") None alice
                                    Completed) small_world in
  distinct_ids (List.map Blog.id (blogs small_world)) = true
  /\ In first_post (blogs small_world)
  /\ User.id alice = Blog.owner_id first_post
  /\ status (fst r) = 200
  /\ exists B' : Blog.t,
       body (fst r) = JSONBlog (from_orm B')
       /\ Blog.id B' = 1 /\ Blog.owner_id B' = 1
       /\ Blog.title B' = "T" /\ Blog.content B' = "" /\ Blog.tags B' = "poultry"
       /\ Blog.image B' = None.
Proof.
  intros r.
  assert (Hd : distinct_ids (List.map Blog.id (blogs small_world)) = true) by reflexivity.
  assert (HB : In first_post (blogs small_world)) by (simpl; left; reflexivity).
  assert (HU : User.id alice = Blog.owner_id first_post) by reflexivity.
  split; [exact Hd|]. split; [exact HB|]. split; [exact HU|].
  destruct (put_changes_exactly_supplied_fields sample_hash_password sample_verify_password
              sample_create_access_token small_world first_post alice
              None None (Some "poultry") None Completed Hd HB HU) as [Hiff Hfields].
  assert (Hok : status (fst r) = 200) by (apply Hiff; reflexivity).
  split; [exact Hok|].
  destruct (Hfields Hok) as (B' & Hbody & Hid & Hown & Htitle & Hcontent & Htags & Himage & _).
  exists B'. repeat split; assumption.
Defined.

(** Alice logs in with her password. *)
Lemma login_succeeds_iff_password_verifies_witness :
  let r := sample_app (POST_login (OAuth2PasswordRequestForm.mk "a@x.com" "p1") 0) small_world in
  distinct_emails (List.map User.email (users small_world)) = true
  /\ (status (fst r) = 200 <->
        exists u, In u (users small_world) /\ User.email u = "a@x.com"
                  /\ sample_verify_password "p1" (User.password u) = true)
  /\ snd r = small_world.
Proof.
  intros r.
  assert (Hd : distinct_emails (List.map User.email (users small_world)) = true)
    by reflexivity.
  split; [exact Hd|].
  destruct (login_succeeds_iff_password_verifies sample_hash_password sample_verify_password
              sample_create_access_token small_world "a@x.com" "p1" 0 Hd)
    as (Hiff & _ & _ & Hsame).
  split; [exact Hiff|exact Hsame].
Defined.

(** The first scenario of the spec: signup("a@x.com","p1") answers 200,
    signup("a@x.com","p2") answers 400 and adds nothing. *)
Lemma signup_conflict_iff_email_exists_witness :
  let r := sample_app (POST_signup (UserCreate.mk "a@x.com" "p1") "s1") empty_world in
  let r' := sample_app (POST_signup (UserCreate.mk "a@x.com" "p2") "s2") (snd r) in
  (~ exists u, In u (users empty_world) /\ User.email u = "a@x.com")
  /\ status (fst r) = 200 /\ status (fst r') = 400 /\ snd r' = snd r.
Proof.
  intros r r'.
  assert (Hfree : ~ exists u, In u (users empty_world) /\ User.email u = "a@x.com").
  { intros (u & Hu & _). exact Hu. }
  split; [exact Hfree|].
  destruct (signup_conflict_iff_email_exists sample_hash_password sample_verify_password
              sample_create_access_token empty_world (UserCreate.mk "a@x.com" "p1") "s1")
    as (_ & _ & _ & Htwice).
  exact (Htwice Hfree (UserCreate.mk "a@x.com" "p2") "s2" eq_refl).
Defined.

(** C6, the claim as the spec has it, fails: when the disk is full during a
    POST /blogs/ with an image, the 500 response carries the operating
    system's message to the client instead of the generic one, and nothing
    is printed on the server. *)
Lemma write_failure_detail_reaches_client :
  let r := sample_app (POST_blogs "T" None None (Some photo) alice (Failed disk_full None))
                      empty_world in
  status (fst r) = 500
  /\ body (fst r) = JSONDetail "Image upload failed: [Errno 28] No space left on device"
  /\ body (fst r) <> JSONDetail "Internal Server Error"
  /\ stdout (snd r) = [].
Proof.
  intros r. vm_compute. repeat split. discriminate.
Qed.

(** An exception that escapes a handler, and a failed upload in Alice's PUT. *)
Lemma internal_error_responses_witness :
  let r := sample_app (PUT_blogs_id (Blog.id first_post) None None None (Some photo) alice
                                    (Failed disk_full None)) small_world in
  (raise (A := unit) (Unhandled disk_full) empty_world = (Raise (Unhandled disk_full), empty_world)
   /\ serve (fun _ : unit => JSONMessage "ok") (raise (Unhandled disk_full)) empty_world =
        ({| status := 500; body := JSONDetail "Internal Server Error" |},
         set_stdout (stdout empty_world ++ ["ERROR: " ++ format_exc disk_full]) empty_world))
  /\ distinct_ids (List.map Blog.id (blogs small_world)) = true
  /\ In first_post (blogs small_world)
  /\ User.id alice = Blog.owner_id first_post
  /\ fst r = {| status := 500; body := JSONDetail ("Image upload failed: " ++ str disk_full) |}
  /\ stdout (snd r) = stdout small_world.
Proof.
  intros r.
  assert (Hd : distinct_ids (List.map Blog.id (blogs small_world)) = true) by reflexivity.
  assert (HB : In first_post (blogs small_world)) by (simpl; left; reflexivity).
  assert (HU : User.id alice = Blog.owner_id first_post) by reflexivity.
  destruct (internal_error_responses sample_hash_password sample_verify_password
              sample_create_access_token) as (Hany & _ & Hput).
  split.
  - split; [reflexivity|].
    exact (Hany unit (fun _ => JSONMessage "ok") (raise (Unhandled disk_full))
                empty_world empty_world disk_full eq_refl).
  - split; [exact Hd|]. split; [exact HB|]. split; [exact HU|].
    exact (Hput small_world first_post alice None None None photo disk_full None Hd HB HU).
Defined.

(** Alice replaces the picture of her blog and fetches it. *)
Lemma segment_named_upload_round_trip_witness :
  let r := sample_app (PUT_blogs_id (Blog.id first_post) None None None
                         (Some (UploadFile.mk "hen.png" [Byte.x89; Byte.x50])) alice Completed)
                      small_world in
  path_segment "hen.png" = true
  /\ distinct_ids (List.map Blog.id (blogs small_world)) = true
  /\ In first_post (blogs small_world)
  /\ User.id alice = Blog.owner_id first_post
  /\ status (fst r) = 200
  /\ sample_GET_images_at "hen.png" (snd r) =
       ({| status := 200; body := FileBytes [Byte.x89; Byte.x50] |}, snd r).
Proof.
  intros r.
  assert (Hd : distinct_ids (List.map Blog.id (blogs small_world)) = true) by reflexivity.
  assert (HB : In first_post (blogs small_world)) by (simpl; left; reflexivity).
  assert (HU : User.id alice = Blog.owner_id first_post) by reflexivity.
  split; [reflexivity|]. split; [exact Hd|]. split; [exact HB|]. split; [exact HU|].
  destruct (segment_named_upload_round_trip sample_hash_password sample_verify_password
              sample_create_access_token small_world "hen.png" [Byte.x89; Byte.x50] alice
              eq_refl)
    as (_ & Hput & _).
  exact (Hput first_post None None None Hd HB HU).
Defined.

(** C7, the claim as the spec has it, fails for a file name with "/": Alice
    posts a picture named "../hen.png"; it is accepted and written, beside
    the upload directory, but GET /images/../hen.png matches no route and
    is answered 404 "Not Found", not with the bytes. *)
Lemma slash_named_upload_is_not_served :
  let picture := UploadFile.mk "../hen.png" [Byte.x89; Byte.x50] in
  let r := sample_app (POST_blogs "T" None None (Some picture) alice Completed) small_world in
  status (fst r) = 200
  /\ disk (snd r) !! "uploads/../hen.png" = Some [Byte.x89; Byte.x50]
  /\ sample_GET_images_at "../hen.png" (snd r) =
       ({| status := 404; body := JSONDetail "Not Found" |}, snd r)
  /\ fst (sample_GET_images_at "../hen.png" (snd r))
       <> {| status := 200; body := FileBytes [Byte.x89; Byte.x50] |}.
Proof.
  intros picture r. split; [reflexivity|]. split; [reflexivity|].
  split; [reflexivity|]. discriminate.
Qed.

(** Alice sends a PUT with the title field empty and the tags "layers". *)
Lemma put_empty_form_field_is_an_omission_witness :
  let r := sample_PUT_blogs_id_form (Blog.id first_post) (Some "") None (Some "layers") None
                                    alice Completed small_world in
  distinct_ids (List.map Blog.id (blogs small_world)) = true
  /\ In first_post (blogs small_world)
  /\ User.id alice = Blog.owner_id first_post
  /\ status (fst r) = 200
  /\ exists B',
       body (fst r) = JSONBlog (from_orm B')
       /\ Blog.title B' = "T" /\ Blog.content B' = "" /\ Blog.tags B' = "layers".
Proof.
  intros r.
  assert (Hd : distinct_ids (List.map Blog.id (blogs small_world)) = true) by reflexivity.
  assert (HB : In first_post (blogs small_world)) by (simpl; left; reflexivity).
  assert (HU : User.id alice = Blog.owner_id first_post) by reflexivity.
  split; [exact Hd|]. split; [exact HB|]. split; [exact HU|].
  destruct (put_empty_form_field_is_an_omission sample_hash_password sample_verify_password
              sample_create_access_token small_world first_post alice
              (Some "") None (Some "layers") Completed Hd HB HU)
    as ((Hok & B' & Hbody & _ & Htitle & Hcontent & Htags & _) & _).
  split; [exact Hok|]. exists B'.
  split; [exact Hbody|]. split; [exact Htitle|]. split; [exact Hcontent|exact Htags].
Defined.

(** C10, the claim as the spec has it, fails: Alice's PUT with title="" is
    answered 200 and her blog keeps its title "T". *)
Lemma put_with_empty_title_keeps_title :
  let r := sample_PUT_blogs_id_form (Blog.id first_post) (Some "") None None None
                                    alice Completed small_world in
  fst r = {| status := 200; body := JSONBlog (BlogResponse.mk "T" "" "" 1 None 1) |}
  /\ blogs (snd r) = [Blog.mk 1 "T" "" None "" 1]
  /\ "T" <> "".
Proof.
  intros r. split; [reflexivity|]. split; [reflexivity|]. discriminate.
Qed.

(** The second scenario of the spec: Alice's POST /blogs/ with title "T" on
    an empty blogs table answers 200 with blog 1, and GET /blogs/1 returns
    the same blog. *)
Example post_then_get_scenario :
  let w := set_blogs [] small_world in
  let r := sample_app (POST_blogs "T" None None None alice Completed) w in
  fst r = {| status := 200; body := JSONBlog (BlogResponse.mk "T" "" "" 1 None 1) |}
  /\ fst (sample_app (GET_blogs_id 1) (snd r)) = fst r.
Proof. split; reflexivity. Qed.

(** ** The further properties at work on the small store *)

(** Bob posts with a picture: one row more, owned by Bob, the picture on
    disk under the row's path. *)
Lemma post_blogs_appends_one_row_witness :
  let r := sample_app (POST_blogs "Eggs" (Some "fresh") None (Some photo) bob Completed)
                      small_world in
  status (fst r) = 200
  /\ exists B : Blog.t,
       blogs (snd r) = [first_post; B]
       /\ Blog.owner_id B = 2
       /\ exists path, Blog.image B = Some path
                       /\ disk (snd r) !! path = Some (UploadFile.file photo).
Proof.
  intros r.
  destruct (post_blogs_appends_one_row sample_hash_password sample_verify_password
              sample_create_access_token small_world "Eggs" (Some "fresh") None
              (Some photo) bob Completed) as [Hiff Hrow].
  assert (Hok : status (fst r) = 200) by (apply Hiff; reflexivity).
  split; [exact Hok|].
  destruct (Hrow Hok) as (B & _ & Hblogs & _ & _ & _ & _ & _ & Hown & Himage).
  exists B. split; [exact Hblogs|]. split; [exact Hown|exact Himage].
Defined.

(** Alice deletes her blog. *)
Lemma owner_delete_removes_only_that_blog_witness :
  let r := sample_app (DELETE_blogs_id (Blog.id first_post) alice) small_world in
  distinct_ids (List.map Blog.id (blogs small_world)) = true
  /\ In first_post (blogs small_world)
  /\ User.id alice = Blog.owner_id first_post
  /\ fst r = {| status := 200; body := JSONMessage "Blog deleted" |}
  /\ fst (sample_app (GET_blogs_id (Blog.id first_post)) (snd r)) =
       {| status := 404; body := JSONDetail "Blog not found" |}.
Proof.
  intros r.
  assert (Hd : distinct_ids (List.map Blog.id (blogs small_world)) = true) by reflexivity.
  assert (HB : In first_post (blogs small_world)) by (simpl; left; reflexivity).
  assert (HU : User.id alice = Blog.owner_id first_post) by reflexivity.
  split; [exact Hd|]. split; [exact HB|]. split; [exact HU|].
  destruct (owner_delete_removes_only_that_blog sample_hash_password sample_verify_password
              sample_create_access_token small_world first_post alice Hd HB HU)
    as (Hr & _ & _ & _ & Hget & _).
  split; [exact Hr|exact Hget].
Defined.

(** Bob posts and deletes his post again. *)
Lemma create_then_delete_restores_tables_witness :
  let r := sample_app (POST_blogs "Eggs" None None (Some photo) bob Completed) small_world in
  let r' := sample_app (DELETE_blogs_id 2 bob) (snd r) in
  upload_succeeds (Some photo) Completed = true
  /\ fst r' = {| status := 200; body := JSONMessage "Blog deleted" |}
  /\ blogs (snd r') = blogs small_world
  /\ users (snd r') = users small_world
  /\ disk (snd r') = disk (snd r).
Proof.
  intros r r'. split; [reflexivity|].
  exact (create_then_delete_restores_tables sample_hash_password sample_verify_password
           sample_create_access_token small_world "Eggs" None None (Some photo) bob
           Completed eq_refl).
Defined.

(** Bob posts with a picture and deletes the post: the picture is still
    served. *)
Lemma delete_keeps_image_file_witness :
  let r := sample_app (POST_blogs "Eggs" None None (Some photo) bob Completed) small_world in
  let r' := sample_app (DELETE_blogs_id 2 bob) (snd r) in
  path_segment (UploadFile.filename photo) = true
  /\ status (fst r) = 200 /\ status (fst r') = 200
  /\ blogs (snd r') = blogs small_world
  /\ sample_GET_images_at (UploadFile.filename photo) (snd r') =
       ({| status := 200; body := FileBytes (UploadFile.file photo) |}, snd r').
Proof.
  intros r r'. split; [reflexivity|].
  exact (delete_keeps_image_file sample_hash_password sample_verify_password
           sample_create_access_token small_world "Eggs" None None
           (UploadFile.filename photo) (UploadFile.file photo) bob eq_refl).
Defined.

(** Alice retitles her blog and reads it back. *)
Lemma put_then_get_reads_the_update_witness :
  let r := sample_app (PUT_blogs_id (Blog.id first_post) (Some "Hens") None None None alice
                                    Completed) small_world in
  distinct_ids (List.map Blog.id (blogs small_world)) = true
  /\ In first_post (blogs small_world)
  /\ User.id alice = Blog.owner_id first_post
  /\ upload_succeeds None Completed = true
  /\ status (fst r) = 200
  /\ fst (sample_app (GET_blogs_id (Blog.id first_post)) (snd r)) = fst r.
Proof.
  intros r.
  assert (Hd : distinct_ids (List.map Blog.id (blogs small_world)) = true) by reflexivity.
  assert (HB : In first_post (blogs small_world)) by (simpl; left; reflexivity).
  assert (HU : User.id alice = Blog.owner_id first_post) by reflexivity.
  split; [exact Hd|]. split; [exact HB|]. split; [exact HU|]. split; [reflexivity|].
  destruct (put_then_get_reads_the_update sample_hash_password sample_verify_password
              sample_create_access_token small_world first_post alice
              (Some "Hens") None None None Completed Hd HB HU eq_refl)
    as (Hok & Hget & _).
  split; [exact Hok|exact Hget].
Defined.

(** Alice sends the same PUT, picture included, twice. *)
Lemma put_is_idempotent_witness :
  let put := sample_app (PUT_blogs_id (Blog.id first_post) (Some "Hens") None None
                                      (Some photo) alice Completed) in
  distinct_ids (List.map Blog.id (blogs small_world)) = true
  /\ In first_post (blogs small_world)
  /\ User.id alice = Blog.owner_id first_post
  /\ upload_succeeds (Some photo) Completed = true
  /\ put (snd (put small_world)) = put small_world.
Proof.
  intros put.
  assert (Hd : distinct_ids (List.map Blog.id (blogs small_world)) = true) by reflexivity.
  assert (HB : In first_post (blogs small_world)) by (simpl; left; reflexivity).
  assert (HU : User.id alice = Blog.owner_id first_post) by reflexivity.
  split; [exact Hd|]. split; [exact HB|]. split; [exact HU|]. split; [reflexivity|].
  exact (put_is_idempotent sample_hash_password sample_verify_password
           sample_create_access_token small_world first_post alice
           (Some "Hens") None None (Some photo) Completed Hd HB HU eq_refl).
Defined.

(** After Alice's PUT the row under key 1 is still hers. *)
Lemma owner_never_changes_witness :
  let r := PUT_blogs_id 1 (Some "Hens") None None None alice Completed in
  distinct_ids (List.map Blog.id (blogs small_world)) = true
  /\ In first_post (blogs small_world)
  /\ In (set_title "Hens" first_post) (blogs (snd (sample_app r small_world)))
  /\ Blog.id (set_title "Hens" first_post) = Blog.id first_post
  /\ Blog.owner_id (set_title "Hens" first_post) = Blog.owner_id first_post.
Proof.
  intros r.
  assert (Hd : distinct_ids (List.map Blog.id (blogs small_world)) = true) by reflexivity.
  assert (HB : In first_post (blogs small_world)) by (simpl; left; reflexivity).
  assert (HB' : In (set_title "Hens" first_post) (blogs (snd (sample_app r small_world))))
    by (simpl; left; reflexivity).
  split; [exact Hd|]. split; [exact HB|]. split; [exact HB'|]. split; [reflexivity|].
  exact (owner_never_changes sample_hash_password sample_verify_password
           sample_create_access_token r small_world first_post
           (set_title "Hens" first_post) Hd HB HB' eq_refl).
Defined.

(** Whatever Bob sends to /blogs/1, Alice's blog stays as it is. *)
Lemma only_the_owner_changes_a_blog_witness :
  let r := PUT_blogs_id 1 (Some "Bob's") (Some "") None (Some photo) bob Completed in
  distinct_ids (List.map Blog.id (blogs small_world)) = true
  /\ In first_post (blogs small_world)
  /\ (forall U, caller r = Some U -> User.id U <> Blog.owner_id first_post)
  /\ In first_post (blogs (snd (sample_app r small_world))).
Proof.
  intros r.
  assert (Hd : distinct_ids (List.map Blog.id (blogs small_world)) = true) by reflexivity.
  assert (HB : In first_post (blogs small_world)) by (simpl; left; reflexivity).
  assert (HU : forall U, caller r = Some U -> User.id U <> Blog.owner_id first_post).
  { intros U HU. injection HU as <-. simpl. lia. }
  split; [exact Hd|]. split; [exact HB|]. split; [exact HU|].
  exact (only_the_owner_changes_a_blog sample_hash_password sample_verify_password
           sample_create_access_token r small_world first_post Hd HB HU).
Defined.

(** GET /blogs/1 finds Alice's blog. *)
Lemma get_blog_by_id_found_iff_witness :
  let r := sample_app (GET_blogs_id 1) small_world in
  fits_integer_column 1 = true
  /\ In 1 (List.map Blog.id (blogs small_world))
  /\ status (fst r) = 200
  /\ exists B, In B (blogs small_world) /\ Blog.id B = 1
               /\ body (fst r) = JSONBlog (from_orm B).
Proof.
  intros r.
  assert (Hin : In 1 (List.map Blog.id (blogs small_world))) by (simpl; left; reflexivity).
  destruct (get_blog_by_id_found_iff sample_hash_password sample_verify_password
              sample_create_access_token small_world 1 eq_refl) as (Hiff & Hrow & _).
  assert (Hok : status (fst r) = 200) by (apply Hiff; exact Hin).
  split; [reflexivity|]. split; [exact Hin|]. split; [exact Hok|exact (Hrow Hok)].
Defined.

(** Nobody has a blog 7: PUT and DELETE on it answer 404 and change nothing. *)
Lemma mutation_not_found_iff_no_owned_row_witness :
  let put := sample_app (PUT_blogs_id 7 (Some "x") None None None alice Completed)
                        small_world in
  let del := sample_app (DELETE_blogs_id 7 alice) small_world in
  fits_integer_column 7 = true
  /\ (~ exists b, In b (blogs small_world) /\ Blog.id b = 7
                 /\ Blog.owner_id b = User.id alice)
  /\ status (fst put) = 404 /\ status (fst del) = 404
  /\ snd put = small_world /\ snd del = small_world.
Proof.
  intros put del.
  assert (Hnone : ~ exists b, In b (blogs small_world) /\ Blog.id b = 7
                             /\ Blog.owner_id b = User.id alice).
  { intros (b & [<-|[]] & Hid & _). simpl in Hid. lia. }
  destruct (mutation_not_found_iff_no_owned_row sample_hash_password sample_verify_password
              sample_create_access_token small_world 7 alice (Some "x") None None None
              Completed eq_refl) as (Hput & Hdel & _ & Hsame).
  split; [reflexivity|]. split; [exact Hnone|]. split; [apply Hput; exact Hnone|].
  split; [apply Hdel; exact Hnone|]. exact (Hsame Hnone).
Defined.

(** The first scenario of the spec, second half: after signup("a@x.com",
    "p1"), login("a@x.com","p1") answers 200. *)
Lemma signup_then_login_witness :
  let r := sample_app (POST_signup (UserCreate.mk "a@x.com" "p1") "s1") empty_world in
  let r' := sample_app (POST_login (OAuth2PasswordRequestForm.mk "a@x.com" "p1") 0) (snd r) in
  (forall u, In u (users empty_world) -> User.email u <> "a@x.com")
  /\ status (fst r) = 200
  /\ status (fst r') = 200.
Proof.
  intros r r'.
  assert (Hfree : forall u, In u (users empty_world) -> User.email u <> "a@x.com").
  { intros u Hu. destruct Hu. }
  destruct (signup_then_login sample_hash_password sample_verify_password
              sample_create_access_token empty_world (UserCreate.mk "a@x.com" "p1")
              "s1" "p1" 0 Hfree) as (Hsignup & Hlogin & _).
  split; [exact Hfree|]. split; [exact Hsignup|]. apply Hlogin. reflexivity.
Defined.

(** Bob, a user, posts: every blog still has a user as owner. *)
Lemma owners_exist_preserved_witness :
  let r := POST_blogs "Eggs" None None None bob Completed in
  owners_exist small_world = true
  /\ caller_persisted r small_world = true
  /\ owners_exist (snd (sample_app r small_world)) = true.
Proof.
  intros r. split; [reflexivity|]. split; [reflexivity|].
  exact (owners_exist_preserved sample_hash_password sample_verify_password
           sample_create_access_token r small_world eq_refl eq_refl).
Defined.
